(** * OLAP cube engine: a shallow embedding of [dataProcessor.jsx],
      the cube state handlers of [App.jsx] and the pivot validation of
      [OlapControls.jsx], with the properties of the engine stated and
      proved over it. *)

From Stdlib Require Import ZArith Lia Ascii QArith Lqa Sorted.
From stdpp Require Import base strings list gmap pretty.

Set Warnings "-clear-no-such-hyp".

(** ** JavaScript values

    The engine only ever sees [undefined], [null], strings and numbers.
    Numbers are the integer-valued doubles on which [+] is exact, kept as
    [Z]; [NaN] is kept apart because [undefined] turns into it under [+].
    Strings are byte strings. *)

Inductive jsval : Type :=
  | VUndef
  | VNull
  | VNaN
  | VNum (n : Z)
  | VStr (s : string).

#[global] Instance jsval_eq_dec : EqDecision jsval.
Proof. solve_decision. Defined.

(** [!!v] *)
Definition truthy (v : jsval) : bool :=
  match v with
  | VUndef | VNull | VNaN => false
  | VNum n => negb (n =? 0)%Z
  | VStr s => negb (String.eqb s "")
  end.

(** [v !== undefined && v !== null] *)
Definition defined_non_null (v : jsval) : bool :=
  match v with
  | VUndef | VNull => false
  | _ => true
  end.

(** [v !== undefined] *)
Definition not_undefined (v : jsval) : bool :=
  match v with
  | VUndef => false
  | _ => true
  end.

(** [String(v)], also the conversion done by a template literal. *)
Definition ToString (v : jsval) : string :=
  match v with
  | VUndef => "undefined"
  | VNull => "null"
  | VNaN => "NaN"
  | VNum n => pretty n
  | VStr s => s
  end.

(** [a + b]: concatenation as soon as one side is a string, numeric
    addition otherwise ([null] counts as 0, [undefined] as [NaN]).  On
    numbers this is the addition of the source where that one is exact:
    integer operands and a sum below 2^53 in absolute value. *)
Definition js_add (a b : jsval) : jsval :=
  match a, b with
  | VStr s, _ => VStr (s +:+ ToString b)
  | _, VStr s => VStr (ToString a +:+ s)
  | VNum m, VNum n => VNum (m + n)
  | VNum m, VNull => VNum m
  | VNull, VNum n => VNum n
  | VNull, VNull => VNum 0
  | _, _ => VNaN
  end.

(** [s.toLowerCase()] on the ASCII letters. *)
Definition lower_ascii (c : ascii) : ascii :=
  let n := nat_of_ascii c in
  if (65 <=? n)%nat && (n <=? 90)%nat then ascii_of_nat (n + 32) else c.

Fixpoint toLowerCase (s : string) : string :=
  match s with
  | EmptyString => EmptyString
  | String c r => String (lower_ascii c) (toLowerCase r)
  end.

(** [s.includes(sub)] *)
Fixpoint includes (s sub : string) : bool :=
  String.prefix sub s ||
  match s with
  | EmptyString => false
  | String _ r => includes r sub
  end.

(** ** Raw rows, facts and the axis mapping *)

(** A raw row is a plain object; reading a key it does not own gives
    [undefined]. *)
Abbreviation RawRow := (gmap string jsval).

Definition row_get (row : RawRow) (k : string) : jsval :=
  default VUndef (row !! k).

(** The objects built by [processRawData] and [applyRollUp].  A key the
    object does not carry ([value] after a roll-up, [Total] before it)
    reads as [undefined]; the names inherited from [Object.prototype] are
    not dimensions and are left out. *)
Record Fact : Type := mkFact {
  id_ : jsval;
  continent : jsval;
  region : jsval;
  product : jsval;
  quarter : jsval;
  value : jsval;
  Q1 : jsval;
  Q2 : jsval;
  Q3 : jsval;
  Q4 : jsval;
  Total : jsval
}.

#[global] Instance Fact_eq_dec : EqDecision Fact.
Proof. solve_decision. Defined.

Definition own_props (item : Fact) : list (string * jsval) :=
  [ ("id", id_ item); ("continent", continent item); ("region", region item);
    ("product", product item); ("quarter", quarter item);
    ("value", value item); ("Q1", Q1 item); ("Q2", Q2 item);
    ("Q3", Q3 item); ("Q4", Q4 item); ("Total", Total item) ].

Fixpoint assoc (k : string) (l : list (string * jsval)) : option jsval :=
  match l with
  | [] => None
  | (k', v) :: r => if String.eqb k k' then Some v else assoc k r
  end.

(** [item[k]] *)
Definition fact_get (item : Fact) (k : string) : jsval :=
  default VUndef (assoc k (own_props item)).

Record AxisMapping : Type := mkAxisMapping {
  axis_x : string;
  axis_y : string;
  axis_z : string
}.

#[global] Instance AxisMapping_eq_dec : EqDecision AxisMapping.
Proof. solve_decision. Defined.

(** What the code writes to the console. *)
Inductive diag : Type :=
  | SkippedRow (row : RawRow)
  | AxesNotUnique.

(** ** [processRawData] *)

Definition quarters : list string := ["Q1"; "Q2"; "Q3"; "Q4"].

Definition quarter_fact (row : RawRow) (q : string) : Fact :=
  {| id_ := VStr (ToString (row_get row "id") +:+ "-" +:+ q);
     continent := row_get row "continent";
     region := row_get row "region";
     product := row_get row "product";
     quarter := VStr q;
     value := row_get row q;
     Q1 := row_get row "Q1";
     Q2 := row_get row "Q2";
     Q3 := row_get row "Q3";
     Q4 := row_get row "Q4";
     Total := VUndef |}.

(** Body of the inner [forEach]: one [push] per quarter that is there. *)
Definition push_quarter (row : RawRow) (processed : list Fact) (q : string)
  : list Fact :=
  if defined_non_null (row_get row q)
  then processed ++ [quarter_fact row q]
  else processed.

(** Body of the outer [forEach]; the state is the array [processed]
    together with the console. *)
Definition process_row (axisMapping : AxisMapping)
    (st : list Fact * list diag) (row : RawRow) : list Fact * list diag :=
  if negb (truthy (row_get row (axis_x axisMapping)))
     || negb (truthy (row_get row (axis_y axisMapping)))
  then (st.1, st.2 ++ [SkippedRow row])
  else (fold_left (push_quarter row) quarters st.1, st.2).

Definition processRawData_run (rawData : list RawRow) (axisMapping : AxisMapping)
  : list Fact * list diag :=
  fold_left (process_row axisMapping) rawData ([], []).

Definition processRawData (rawData : list RawRow) (axisMapping : AxisMapping)
  : list Fact :=
  (processRawData_run rawData axisMapping).1.

(** ** [applySlice] and [applyDice] *)

(** The test both filters run on one item: the stringified, lower-cased
    field contains the stringified, lower-cased filter value. *)
Definition field_includes (item : Fact) (dimension : string) (v : jsval) : bool :=
  includes (toLowerCase (ToString (fact_get item dimension)))
           (toLowerCase (ToString v)).

Definition applySlice (data : list Fact) (dimension : string) (v : jsval)
  : list Fact :=
  if String.eqb dimension "" || negb (truthy v)
  then data
  else
    let lowerCaseValue := toLowerCase (ToString v) in
    List.filter
      (fun item =>
         includes (toLowerCase (ToString (fact_get item dimension)))
                  lowerCaseValue)
      data.

(** The callback given to [every]. *)
Definition dice_entry (item : Fact) (e : string * jsval) : bool :=
  if negb (truthy e.2) then true else field_includes item e.1 e.2.

Definition applyDice (data : list Fact) (filters : gmap string jsval)
  : list Fact :=
  if (size filters =? 0)%nat
  then data
  else List.filter
         (fun item => forallb (dice_entry item) (map_to_list filters))
         data.

(** ** [applyPivot]: hands the mapping back untouched. *)
Definition applyPivot (data : list Fact) (newAxisMapping : AxisMapping)
  : AxisMapping :=
  newAxisMapping.

(** ** [applyRollUp] *)

(** A JavaScript [Map] keyed by strings: entries in insertion order, [set]
    on a key that is there keeps its place. *)
Abbreviation JsMap := (list (string * Fact)).

Fixpoint map_has (k : string) (m : JsMap) : bool :=
  match m with
  | [] => false
  | (k', _) :: r => String.eqb k k' || map_has k r
  end.

Fixpoint map_get (k : string) (m : JsMap) : option Fact :=
  match m with
  | [] => None
  | (k', v) :: r => if String.eqb k k' then Some v else map_get k r
  end.

Fixpoint map_set (k : string) (v : Fact) (m : JsMap) : JsMap :=
  match m with
  | [] => [(k, v)]
  | (k', v') :: r =>
      if String.eqb k k' then (k, v) :: r else (k', v') :: map_set k v r
  end.

Definition map_values (m : JsMap) : list Fact := map snd m.

(** The aggregation key, a template literal over the three dimensions. *)
Definition rollup_key (item : Fact) : string :=
  ToString (continent item) +:+ "-" +:+
  ToString (region item) +:+ "-" +:+ ToString (product item).

(** The entry created the first time a key is seen. *)
Definition rollup_init (key : string) (item : Fact) : Fact :=
  {| id_ := VStr key;
     continent := continent item;
     region := region item;
     product := product item;
     quarter := VUndef;
     value := VUndef;
     Q1 := Q1 item;
     Q2 := Q2 item;
     Q3 := Q3 item;
     Q4 := Q4 item;
     Total := VNum 0 |}.

Definition set_Total (item : Fact) (t : jsval) : Fact :=
  {| id_ := id_ item; continent := continent item; region := region item;
     product := product item; quarter := quarter item; value := value item;
     Q1 := Q1 item; Q2 := Q2 item; Q3 := Q3 item; Q4 := Q4 item;
     Total := t |}.

Definition set_quarter (item : Fact) (q : jsval) : Fact :=
  {| id_ := id_ item; continent := continent item; region := region item;
     product := product item; quarter := q; value := value item;
     Q1 := Q1 item; Q2 := Q2 item; Q3 := Q3 item; Q4 := Q4 item;
     Total := Total item |}.

(** Body of the [forEach] of [applyRollUp].  [current] is the object
    stored in the map, so [current.Total += item.value] is a [set] of the
    same key. *)
Definition rollUp_step (rolledUpDataMap : JsMap) (item : Fact) : JsMap :=
  let key := rollup_key item in
  let m1 :=
    if negb (map_has key rolledUpDataMap)
    then map_set key (rollup_init key item) rolledUpDataMap
    else rolledUpDataMap in
  match map_get key m1 with
  | Some current =>
      if truthy (quarter item) && not_undefined (value item)
      then map_set key (set_Total current (js_add (Total current) (value item))) m1
      else m1
  | None => m1
  end.

Definition applyRollUp (data : list Fact) : list Fact :=
  let rolledUpDataMap := fold_left rollUp_step data [] in
  let rolledUpArray := map_values rolledUpDataMap in
  map (fun item => set_quarter item (VStr "Total")) rolledUpArray.

(** ** [applyDrillDown]: hands the saved collection back. *)
Definition applyDrillDown (data originalDataBeforeRollUp : list Fact)
  : list Fact :=
  originalDataBeforeRollUp.

(** ** The cube state of [App] *)

Record AppState : Type := mkAppState {
  rawData : list RawRow;
  cubeData : list Fact;
  axisMapping : AxisMapping;
  currentFilters : gmap string jsval;
  isRolledUp : bool;
  originalCubeDataBeforeRollUp : list Fact
}.

Definition defaultMap : AxisMapping :=
  {| axis_x := "continent"; axis_y := "region"; axis_z := "quarter" |}.

(** The [useState] initial values. *)
Definition initialState : AppState :=
  {| rawData := []; cubeData := []; axisMapping := defaultMap;
     currentFilters := ∅; isRolledUp := false;
     originalCubeDataBeforeRollUp := [] |}.

(** The effect on [[rawData, axisMapping]]. *)
Definition recompute (st : AppState) : AppState :=
  if (0 <? length (rawData st))%nat
  then
    let processed := processRawData (rawData st) (axisMapping st) in
    {| rawData := rawData st; cubeData := processed;
       axisMapping := axisMapping st; currentFilters := ∅;
       isRolledUp := false; originalCubeDataBeforeRollUp := processed |}
  else
    {| rawData := rawData st; cubeData := [];
       axisMapping := axisMapping st; currentFilters := ∅;
       isRolledUp := false;
       originalCubeDataBeforeRollUp := originalCubeDataBeforeRollUp st |}.

Definition handleDataTableChange (st : AppState) (newData : list RawRow)
  : AppState :=
  {| rawData := newData; cubeData := cubeData st;
     axisMapping := axisMapping st; currentFilters := currentFilters st;
     isRolledUp := isRolledUp st;
     originalCubeDataBeforeRollUp := originalCubeDataBeforeRollUp st |}.

Definition handleSlice (st : AppState) (dimension : string) (v : jsval)
  : AppState :=
  let newFilters := <[dimension := v]> (currentFilters st) in
  let filteredData := applySlice (originalCubeDataBeforeRollUp st) dimension v in
  {| rawData := rawData st; cubeData := filteredData;
     axisMapping := axisMapping st; currentFilters := newFilters;
     isRolledUp := false;
     originalCubeDataBeforeRollUp := originalCubeDataBeforeRollUp st |}.

Definition handleDice (st : AppState) (filters : gmap string jsval)
  : AppState :=
  let filteredData := applyDice (originalCubeDataBeforeRollUp st) filters in
  {| rawData := rawData st; cubeData := filteredData;
     axisMapping := axisMapping st; currentFilters := filters;
     isRolledUp := false;
     originalCubeDataBeforeRollUp := originalCubeDataBeforeRollUp st |}.

Definition handlePivot (st : AppState) (newMapping : AxisMapping) : AppState :=
  {| rawData := rawData st; cubeData := cubeData st;
     axisMapping := newMapping; currentFilters := currentFilters st;
     isRolledUp := false;
     originalCubeDataBeforeRollUp := originalCubeDataBeforeRollUp st |}.

Definition handleRollUp (st : AppState) : AppState :=
  if negb (isRolledUp st)
  then
    let rolledUpData := applyRollUp (cubeData st) in
    {| rawData := rawData st; cubeData := rolledUpData;
       axisMapping := axisMapping st; currentFilters := currentFilters st;
       isRolledUp := true;
       originalCubeDataBeforeRollUp := cubeData st |}
  else st.

Definition handleDrillDown (st : AppState) : AppState :=
  if isRolledUp st
  then
    {| rawData := rawData st; cubeData := originalCubeDataBeforeRollUp st;
       axisMapping := axisMapping st; currentFilters := currentFilters st;
       isRolledUp := false;
       originalCubeDataBeforeRollUp := originalCubeDataBeforeRollUp st |}
  else if (0 <? size (currentFilters st))%nat
  then
    let processed := processRawData (rawData st) (axisMapping st) in
    {| rawData := rawData st; cubeData := processed;
       axisMapping := axisMapping st; currentFilters := ∅;
       isRolledUp := false;
       originalCubeDataBeforeRollUp := originalCubeDataBeforeRollUp st |}
  else st.

Definition handleReset (st : AppState) : AppState :=
  let resetCube := processRawData (rawData st) defaultMap in
  {| rawData := rawData st; cubeData := resetCube;
     axisMapping := defaultMap; currentFilters := ∅;
     isRolledUp := false; originalCubeDataBeforeRollUp := resetCube |}.

(** ** Events

    A handler that stores a new [rawData] or a new [axisMapping] object is
    followed by the effect, which React runs once the new state is
    rendered; the other handlers are events on their own. *)

Definition dataChanged (st : AppState) (newData : list RawRow) : AppState :=
  recompute (handleDataTableChange st newData).

Definition onPivot (st : AppState) (newMapping : AxisMapping) : AppState :=
  recompute (handlePivot st newMapping).

Definition onReset (st : AppState) : AppState :=
  recompute (handleReset st).

(** [handleApplyPivot] of the controls: the three selected axes, the
    [Set] built from them, and either the console error or the call of
    [onPivot]. *)
Definition handleApplyPivot (pivotX pivotY pivotZ : string) (st : AppState)
  : AppState * list diag :=
  let uniqueAxes : gset string := list_to_set [pivotX; pivotY; pivotZ] in
  if negb (size uniqueAxes =? 3)%nat
  then (st, [AxesNotUnique])
  else (onPivot st {| axis_x := pivotX; axis_y := pivotY; axis_z := pivotZ |}, []).

(** * Reference readings used in the statements *)

(** The quarters of a row that hold a value. *)
Definition present_quarters (row : RawRow) : list string :=
  List.filter (fun q => defined_non_null (row_get row q)) quarters.

(** What one row contributes to the expansion, read off the two loops. *)
Definition row_facts (axisMapping : AxisMapping) (row : RawRow) : list Fact :=
  if negb (truthy (row_get row (axis_x axisMapping)))
     || negb (truthy (row_get row (axis_y axisMapping)))
  then []
  else map (quarter_fact row) (present_quarters row).

(** Sample rows: the scenario row of the data table, and the same row
    with one dimension left blank. *)
Definition sample_row (continentV regionV productV : string) : RawRow :=
  list_to_map
    [ ("id", VNum 1); ("continent", VStr continentV); ("region", VStr regionV);
      ("product", VStr productV);
      ("Q1", VNum 10); ("Q2", VNum 20); ("Q3", VNum 30); ("Q4", VNum 40) ].

Definition row_asia : RawRow := sample_row "Asia" "East" "A".
Definition row_blank_continent : RawRow := sample_row "" "East" "A".
Definition row_blank_region : RawRow := sample_row "Asia" "" "A".
Definition row_blank_product : RawRow := sample_row "Asia" "East" "".

(** The snapshot that slice and dice filter holds the unfiltered baseline:
    the expansion of the raw data under the current mapping. *)
Definition snapshot_is_baseline (st : AppState) : Prop :=
  originalCubeDataBeforeRollUp st =
  processRawData (rawData st) (axisMapping st).

Definition row_europe : RawRow := sample_row "Europe" "West" "B".

(** The group of a fact, as the documentation of [applyRollUp] names it:
    its combination of continent, region and product. *)
Definition triple (item : Fact) : jsval * jsval * jsval :=
  (continent item, region item, product item).

(** Whether [applyRollUp] adds the value of an item to the total. *)
Definition counts (item : Fact) : bool :=
  truthy (quarter item) && not_undefined (value item).

(** [current.Total += item.value], under its guard. *)
Definition add_value (current item : Fact) : Fact :=
  if counts item
  then set_Total current (js_add (Total current) (value item))
  else current.

(** Two rows of distinct groups whose keys are the same string. *)
Definition row_asia_pacific : RawRow := sample_row "Asia-Pacific" "East" "A".
Definition row_pacific_east : RawRow := sample_row "Asia" "Pacific-East" "A".

(** The facts of a collection filed under one key, in input order. *)
Definition group (k : string) (data : list Fact) : list Fact :=
  List.filter (fun f => String.eqb (rollup_key f) k) data.

(** The map entry a group ends up with: created from its first fact, then
    every fact of the group added in turn. *)
Definition group_entry (k : string) (g : list Fact) : option Fact :=
  match g with
  | [] => None
  | f0 :: _ => Some (fold_left add_value g (rollup_init k f0))
  end.

(** A quarter fact with a numeric value, as expansion builds them from
    the rows of the data table. *)
Definition is_quarter_fact (f : Fact) : Prop :=
  counts f = true ∧ ∃ n, value f = VNum n.

Definition value_Z (f : Fact) : Z :=
  match value f with
  | VNum n => n
  | _ => 0%Z
  end.

Definition sum_values (l : list Fact) : Z :=
  fold_right (fun f s => (value_Z f + s)%Z) 0%Z l.

(** The values of the collection are integers whose absolute values add up
    to less than 2^53.  Every sum of some of them, taken in any order, is
    then an integer below 2^53 in absolute value, the range in which the
    additions of the source are exact. *)
Definition sum_abs (l : list Fact) : Z :=
  fold_right (fun f s => (Z.abs (value_Z f) + s)%Z) 0%Z l.

Definition exact_sums (data : list Fact) : Prop :=
  (sum_abs data < 2 ^ 53)%Z.

(** The facts of a collection that belong to one group. *)
Definition triple_group (t : jsval * jsval * jsval) (data : list Fact)
  : list Fact :=
  List.filter (fun f => bool_decide (triple f = t)) data.

(** No two groups of the collection share a key. *)
Definition keys_separate (data : list Fact) : Prop :=
  ∀ f f', f ∈ data → f' ∈ data →
          rollup_key f = rollup_key f' → triple f = triple f'.

(** [keys_separate], as a test that runs. *)
Definition keys_separate_b (data : list Fact) : bool :=
  forallb
    (fun f =>
       forallb
         (fun f' =>
            negb (String.eqb (rollup_key f) (rollup_key f'))
            || bool_decide (triple f = triple f'))
         data)
    data.

(** The guard of [processRawData]: the row is skipped. *)
Definition row_skipped (axisMapping : AxisMapping) (row : RawRow) : bool :=
  negb (truthy (row_get row (axis_x axisMapping)))
  || negb (truthy (row_get row (axis_y axisMapping))).

(** A row under another id. *)
Definition with_id (n : Z) (row : RawRow) : RawRow := <["id" := VNum n]> row.

(** What the user can do to the cube, and the state each action leaves:
    the handler, followed by the effect where the handler stores new raw
    data or a new axis mapping. *)
Inductive event : Type :=
  | DataChanged (newData : list RawRow)
  | Slice (dimension : string) (v : jsval)
  | Dice (filters : gmap string jsval)
  | ApplyPivot (pivotX pivotY pivotZ : string)
  | RollUp
  | DrillDown
  | Reset.

Definition step (st : AppState) (e : event) : AppState :=
  match e with
  | DataChanged newData => dataChanged st newData
  | Slice dimension v => handleSlice st dimension v
  | Dice filters => handleDice st filters
  | ApplyPivot pivotX pivotY pivotZ => (handleApplyPivot pivotX pivotY pivotZ st).1
  | RollUp => handleRollUp st
  | DrillDown => handleDrillDown st
  | Reset => onReset st
  end.

Definition run (events : list event) : AppState :=
  fold_left step events initialState.

(** A fact as expansion makes them: of one of the four quarters, with a
    value and without a total. *)
Definition quarter_shaped (f : Fact) : Prop :=
  (∃ q, q ∈ quarters ∧ quarter f = VStr q)
  ∧ defined_non_null (value f) = true
  ∧ Total f = VUndef.

(** The axes of a mapping are three different dimensions. *)
Definition axes_distinct (m : AxisMapping) : Prop :=
  axis_x m ≠ axis_y m ∧ axis_x m ≠ axis_z m ∧ axis_y m ≠ axis_z m.

(** ** The controls ([OlapControls.jsx])

    The local state of the component: the slice inputs, the dice inputs
    (one text box per dimension) and the three pivot selections. *)
Record Controls : Type := mkControls {
  sliceDimension : string;
  sliceValue : string;
  diceFilters : gmap string jsval;
  pivotX : string;
  pivotY : string;
  pivotZ : string
}.

(** The [useState] initial values, given the mapping of the parent. *)
Definition initialControls (currentAxisMapping : AxisMapping) : Controls :=
  {| sliceDimension := "continent"; sliceValue := ""; diceFilters := ∅;
     pivotX := axis_x currentAxisMapping;
     pivotY := axis_y currentAxisMapping;
     pivotZ := axis_z currentAxisMapping |}.

Definition handleDiceFilterChange (c : Controls) (dimension newValue : string)
  : Controls :=
  {| sliceDimension := sliceDimension c; sliceValue := sliceValue c;
     diceFilters := <[dimension := VStr newValue]> (diceFilters c);
     pivotX := pivotX c; pivotY := pivotY c; pivotZ := pivotZ c |}.

(** [value !== ''] *)
Definition not_blank (v : jsval) : bool :=
  negb (bool_decide (v = VStr "")).

(** The entries kept by [handleApplyDice]. *)
Definition activeFilters (c : Controls) : gmap string jsval :=
  filter (fun e => not_blank e.2 = true) (diceFilters c).

Definition handleApplyDice (c : Controls) (st : AppState) : AppState :=
  handleDice st (activeFilters c).

(** The 'Apply Slice' button. *)
Definition clickSlice (c : Controls) (st : AppState) : AppState :=
  handleSlice st (sliceDimension c) (VStr (sliceValue c)).

(** The dimensions offered for slice, dice and the X and Y axes. *)
Definition dimensionsForSliceDice (availableDimensions : list string)
  : list string :=
  List.filter (fun d => negb (String.eqb d "quarter")) availableDimensions.

(** The 'Apply Pivot' button, on the selections of the controls. *)
Definition clickPivot (c : Controls) (st : AppState) : AppState * list diag :=
  handleApplyPivot (pivotX c) (pivotY c) (pivotZ c) st.

(** ** The cube ([ThreeDCube.jsx])

    What the component computes from the facts and the axis mapping: the
    values along the X and Y axes, their indices, and the blocks.  A block
    is kept as its key, its position and the text written on it; its
    colour is drawn at random and is left out.  The sizes are the
    constants of the source, all multiples of one half, so the positions
    computed in [Q] are the ones computed in floating point. *)

Definition CUBE_SIZE : Q := 3.
Definition SPACING : Q := 1.

(** [[...new Set(l)]]: the first occurrence of every value, in order. *)
Definition set_add (acc : list jsval) (v : jsval) : list jsval :=
  if bool_decide (v ∈ acc) then acc else acc ++ [v].

Definition set_values (l : list jsval) : list jsval :=
  fold_left set_add l [].

(** The order of the default [sort]: [undefined] last, everything else by
    its string. *)
Definition sort_le (a b : jsval) : bool :=
  match a, b with
  | _, VUndef => true
  | VUndef, _ => false
  | _, _ => String.leb (ToString a) (ToString b)
  end.

Fixpoint sort_insert (a : jsval) (l : list jsval) : list jsval :=
  match l with
  | [] => [a]
  | b :: r => if sort_le a b then a :: b :: r else b :: sort_insert a r
  end.

(** [l.sort()]: the sort is stable, so its result is that of insertion. *)
Definition js_sort (l : list jsval) : list jsval :=
  fold_right sort_insert [] l.

Definition getUniqueValues (data : list Fact) (dimension : string)
  : list jsval :=
  js_sort (set_values (map (fun d => fact_get d dimension) data)).

(** A [Map] from values to indices. *)
Fixpoint vmap_set (k : jsval) (i : nat) (m : list (jsval * nat))
  : list (jsval * nat) :=
  match m with
  | [] => [(k, i)]
  | (k', i') :: r =>
      if bool_decide (k = k') then (k, i) :: r else (k', i') :: vmap_set k i r
  end.

Fixpoint vmap_get (k : jsval) (m : list (jsval * nat)) : option nat :=
  match m with
  | [] => None
  | (k', i) :: r => if bool_decide (k = k') then Some i else vmap_get k r
  end.

(** [new Map(vals.map((val, idx) => [val, idx]))] *)
Definition index_map (vals : list jsval) : list (jsval * nat) :=
  fold_left (fun m e => vmap_set e.1 e.2 m)
            (imap (fun idx val => (val, idx)) vals) [].

Definition zValues : list jsval :=
  [VStr "Q1"; VStr "Q2"; VStr "Q3"; VStr "Q4"; VStr "Total"].

(** [cubeWidth], [offsetX] and [posX] for an axis of [n] values. *)
Definition axis_extent (n : nat) : Q :=
  inject_Z (Z.of_nat n) * (CUBE_SIZE + SPACING) - SPACING.

Definition axis_offset (n : nat) : Q :=
  - axis_extent n / 2 + CUBE_SIZE / 2.

Definition axis_position (n idx : nat) : Q :=
  inject_Z (Z.of_nat idx) * (CUBE_SIZE + SPACING) + axis_offset n.

Record Block : Type := mkBlock {
  block_key : string;
  block_position : Q * Q * Q;
  block_text : string
}.

(** [v.toFixed(0)]: a method of numbers only; on anything else the call
    throws.  On the integers kept here it gives the decimal numeral (below
    1e21); the rounding it does on a fraction is outside this model, and
    the statements on block texts name [toFixed0] itself. *)
Definition toFixed0 (v : jsval) : option string :=
  match v with
  | VNum n => Some (pretty n)
  | VNaN => Some "NaN"
  | _ => None
  end.

(** What [useMemo] computes first. *)
Record Layout : Type := mkLayout {
  xValues : list jsval;
  yValues : list jsval;
  xIndices : list (jsval * nat);
  yIndices : list (jsval * nat);
  zIndices : list (jsval * nat)
}.

Definition layout (data : list Fact) (axisMapping : AxisMapping) : Layout :=
  let xVals := getUniqueValues data (axis_x axisMapping) in
  let yVals := getUniqueValues data (axis_y axisMapping) in
  {| xValues := xVals; yValues := yVals;
     xIndices := index_map xVals; yIndices := index_map yVals;
     zIndices := index_map zValues |}.

(** The block at cell [(xi, yi, zi)] for an item, under the name [name]
    (a quarter, or 'Total'), showing [text]. *)
Definition block_at (L : Layout) (item : Fact) (name : string)
    (xi yi zi : nat) (text : string) : Block :=
  {| block_key := ToString (id_ item) +:+ "-" +:+ name;
     block_position :=
       (axis_position (length (xValues L)) xi,
        axis_position (length (yValues L)) yi,
        axis_position (length zValues) zi);
     block_text := text |}.

(** Body of the inner [forEach] over the quarters; the state is the array
    [blocks] and the flag [hasQuarters], and [None] is a thrown
    [TypeError]. *)
Definition quarter_step (L : Layout) (item : Fact) (xIdx yIdx : option nat)
    (st : option (list Block * bool)) (q : string)
  : option (list Block * bool) :=
  match st with
  | None => None
  | Some (blocks, hasQuarters) =>
      if not_undefined (fact_get item q)
      then
        match xIdx, yIdx, vmap_get (VStr q) (zIndices L) with
        | Some xi, Some yi, Some zi =>
            match toFixed0 (fact_get item q) with
            | Some text =>
                Some (blocks ++ [block_at L item q xi yi zi text], true)
            | None => None
            end
        | _, _, _ => Some (blocks, true)
        end
      else Some (blocks, hasQuarters)
  end.

(** Body of the outer [forEach] over the items. *)
Definition item_step (L : Layout) (axisMapping : AxisMapping)
    (st : option (list Block)) (item : Fact) : option (list Block) :=
  match st with
  | None => None
  | Some blocks =>
      let xIdx := vmap_get (fact_get item (axis_x axisMapping)) (xIndices L) in
      let yIdx := vmap_get (fact_get item (axis_y axisMapping)) (yIndices L) in
      match fold_left (quarter_step L item xIdx yIdx) quarters
                      (Some (blocks, false)) with
      | None => None
      | Some (blocks', hasQuarters) =>
          if not_undefined (Total item) && negb hasQuarters
          then
            match xIdx, yIdx, vmap_get (VStr "Total") (zIndices L) with
            | Some xi, Some yi, Some zi =>
                match toFixed0 (Total item) with
                | Some text =>
                    Some (blocks' ++ [block_at L item "Total" xi yi zi text])
                | None => None
                end
            | _, _, _ => Some blocks'
            end
          else Some blocks'
      end
  end.

Definition cubeBlocks (data : list Fact) (axisMapping : AxisMapping)
  : option (list Block) :=
  fold_left (item_step (layout data axisMapping) axisMapping) data (Some []).

(** The text of a block whose measure is a number. *)
Definition fixed_text (v : jsval) : string :=
  match toFixed0 v with
  | Some text => text
  | None => EmptyString
  end.

(** The blocks an item gives when each of its quarterly measures is a
    number: one per quarter, showing [toFixed(0)] of the measure. *)
Definition quarter_blocks (L : Layout) (axisMapping : AxisMapping)
    (item : Fact) : list Block :=
  match vmap_get (fact_get item (axis_x axisMapping)) (xIndices L),
        vmap_get (fact_get item (axis_y axisMapping)) (yIndices L) with
  | Some xi, Some yi =>
      imap (fun zi q =>
              block_at L item q xi yi zi (fixed_text (fact_get item q)))
           quarters
  | _, _ => []
  end.

(** The four quarterly measures of a fact are numbers, as they are for
    the rows of the data table. *)
Definition numeric_quarters (item : Fact) : Prop :=
  ∃ n1 n2 n3 n4,
    Q1 item = VNum n1 ∧ Q2 item = VNum n2
    ∧ Q3 item = VNum n3 ∧ Q4 item = VNum n4.

Definition numeric_row (row : RawRow) : Prop :=
  ∀ q, q ∈ quarters → ∃ n, row_get row q = VNum n.

(** ** The data table ([DataTable.jsx])

    The rows under edit and the inputs of the row to add.  [parseFloat] and
    the conversion of a string to a number are the built-ins of the
    language; the handlers take them as parameters. *)

Record TableState : Type := mkTableState {
  tableData : list RawRow;
  newRow : RawRow
}.

Definition emptyNewRow : RawRow :=
  list_to_map
    [ ("continent", VStr ""); ("region", VStr ""); ("product", VStr "");
      ("Q1", VNum 0); ("Q2", VNum 0); ("Q3", VNum 0); ("Q4", VNum 0) ].

Definition initialTable (data : list RawRow) : TableState :=
  {| tableData := data; newRow := emptyNewRow |}.

(** [a === b] *)
Definition strict_eq (a b : jsval) : bool :=
  match a, b with
  | VNaN, _ | _, VNaN => false
  | _, _ => bool_decide (a = b)
  end.

(** [a || b] *)
Definition js_or (a b : jsval) : jsval := if truthy a then a else b.

(** [field.startsWith('Q') ? parseFloat(newValue) || 0 : newValue] *)
Definition field_value (parseFloat : string → jsval)
    (field newValue : string) : jsval :=
  if String.prefix "Q" field
  then js_or (parseFloat newValue) (VNum 0)
  else VStr newValue.

Definition handleInputChange (parseFloat : string → jsval) (t : TableState)
    (newValue : string) (id : jsval) (field : string) : TableState :=
  {| tableData :=
       map (fun row =>
              if strict_eq (row_get row "id") id
              then <[field := field_value parseFloat field newValue]> row
              else row)
           (tableData t);
     newRow := newRow t |}.

Definition handleNewRowInputChange (parseFloat : string → jsval)
    (t : TableState) (newValue field : string) : TableState :=
  {| tableData := tableData t;
     newRow := <[field := field_value parseFloat field newValue]> (newRow t) |}.

(** The conversion [Math.max] applies to each argument. *)
Definition to_number (StringToNumber : string → jsval) (v : jsval) : jsval :=
  match v with
  | VUndef | VNaN => VNaN
  | VNull => VNum 0
  | VNum n => VNum n
  | VStr s => StringToNumber s
  end.

Definition max2 (a b : jsval) : jsval :=
  match a, b with
  | VNum m, VNum n => VNum (Z.max m n)
  | _, _ => VNaN
  end.

(** [Math.max(a, ...rest)] *)
Definition math_max (StringToNumber : string → jsval)
    (a : jsval) (rest : list jsval) : jsval :=
  fold_left (fun acc v => max2 acc (to_number StringToNumber v)) rest
            (to_number StringToNumber a).

Definition handleAddRow (StringToNumber : string → jsval) (t : TableState)
  : TableState :=
  let newId :=
    match tableData t with
    | [] => VNum 1
    | row :: rows =>
        js_add (math_max StringToNumber (row_get row "id")
                         (map (fun r => row_get r "id") rows))
               (VNum 1)
    end in
  {| tableData := tableData t ++ [newRow t ∪ {["id" := newId]}];
     newRow := emptyNewRow |}.

Definition handleDeleteRow (t : TableState) (id : jsval) : TableState :=
  {| tableData :=
       List.filter (fun row => negb (strict_eq (row_get row "id") id))
                   (tableData t);
     newRow := newRow t |}.

(** 'Apply Data to Cube' *)
Definition handleLoadData (t : TableState) (st : AppState) : AppState :=
  dataChanged st (tableData t).

(** The fields the table has inputs for. *)
Definition table_fields : list string :=
  ["continent"; "region"; "product"; "Q1"; "Q2"; "Q3"; "Q4"].

(** What the user can do to the table. *)
Inductive table_event : Type :=
  | EditCell (id : jsval) (field newValue : string)
  | EditNewRow (field newValue : string)
  | AddRow
  | DeleteRow (id : jsval).

Definition table_step (parseFloat StringToNumber : string → jsval)
    (t : TableState) (e : table_event) : TableState :=
  match e with
  | EditCell id field newValue =>
      handleInputChange parseFloat t newValue id field
  | EditNewRow field newValue =>
      handleNewRowInputChange parseFloat t newValue field
  | AddRow => handleAddRow StringToNumber t
  | DeleteRow id => handleDeleteRow t id
  end.

Definition table_run (parseFloat StringToNumber : string → jsval)
    (events : list table_event) : TableState :=
  fold_left (table_step parseFloat StringToNumber) events (initialTable []).

(** The event edits one of the fields the table shows. *)
Definition on_table_field (e : table_event) : Prop :=
  match e with
  | EditCell _ field _ | EditNewRow field _ => field ∈ table_fields
  | _ => True
  end.

(** [parseFloat] gives a number or [NaN]. *)
Definition parses_numbers (parseFloat : string → jsval) : Prop :=
  ∀ s, (∃ n, parseFloat s = VNum n) ∨ parseFloat s = VNaN.

(** The id of a row, when it is a number. *)
Definition row_id_Z (row : RawRow) : option Z :=
  match row_get row "id" with
  | VNum n => Some n
  | _ => None
  end.

(** What the table keeps true of its rows and of the row to add. *)
Definition table_inv (t : TableState) : Prop :=
  NoDup (map (fun row => row_get row "id") (tableData t))
  ∧ Forall (fun row => (∃ n, row_get row "id" = VNum n) ∧ numeric_row row)
           (tableData t)
  ∧ newRow t !! "id" = None
  ∧ numeric_row (newRow t).

(** The rows an event loads have numeric quarterly measures. *)
Definition numeric_event (e : event) : Prop :=
  match e with
  | DataChanged newData => Forall numeric_row newData
  | _ => True
  end.

(** * Properties *)

(** ** Fact expansion *)

Section Expansion.

Variable axisMapping : AxisMapping.

Lemma fold_push_quarter (row : RawRow) (qs : list string) (acc : list Fact) :
  fold_left (push_quarter row) qs acc =
  acc ++ map (quarter_fact row)
             (List.filter (fun q => defined_non_null (row_get row q)) qs).
Proof.
  revert acc; induction qs as [|q qs IH]; intros acc; simpl.
  - by rewrite app_nil_r.
  - rewrite IH. unfold push_quarter.
    destruct (defined_non_null (row_get row q)); simpl; [|done].
    by rewrite <- app_assoc.
Qed.

Lemma process_row_facts (st : list Fact * list diag) (row : RawRow) :
  (process_row axisMapping st row).1 = st.1 ++ row_facts axisMapping row.
Proof.
  unfold process_row, row_facts, present_quarters.
  destruct (negb (truthy (row_get row (axis_x axisMapping)))
            || negb (truthy (row_get row (axis_y axisMapping)))); cbn [fst snd].
  - by rewrite app_nil_r.
  - apply fold_push_quarter.
Qed.

Lemma fold_process_row (rows : list RawRow) (st : list Fact * list diag) :
  (fold_left (process_row axisMapping) rows st).1 =
  st.1 ++ flat_map (row_facts axisMapping) rows.
Proof.
  revert st; induction rows as [|row rows IH]; intros st; simpl.
  - by rewrite app_nil_r.
  - rewrite IH, process_row_facts. by rewrite <- app_assoc.
Qed.

Lemma processRawData_flat_map (rows : list RawRow) :
  processRawData rows axisMapping = flat_map (row_facts axisMapping) rows.
Proof. unfold processRawData, processRawData_run. by rewrite fold_process_row. Qed.

Lemma processRawData_single (row : RawRow) :
  processRawData [row] axisMapping = row_facts axisMapping row.
Proof. rewrite processRawData_flat_map. simpl. by rewrite app_nil_r. Qed.

(** Expansion goes row by row, in row order. *)
Lemma processRawData_app (rows1 rows2 : list RawRow) :
  processRawData (rows1 ++ rows2) axisMapping =
  processRawData rows1 axisMapping ++ processRawData rows2 axisMapping.
Proof. rewrite !processRawData_flat_map. apply flat_map_app. Qed.

Lemma processRawData_nil : processRawData [] axisMapping = [].
Proof. reflexivity. Qed.

Lemma row_facts_skipped (row : RawRow) :
  truthy (row_get row (axis_x axisMapping)) = false
  ∨ truthy (row_get row (axis_y axisMapping)) = false →
  row_facts axisMapping row = [].
Proof.
  unfold row_facts. intros [-> | ->]; simpl; [done|].
  by rewrite orb_true_r.
Qed.

Lemma row_facts_kept (row : RawRow) :
  truthy (row_get row (axis_x axisMapping)) = true →
  truthy (row_get row (axis_y axisMapping)) = true →
  row_facts axisMapping row = map (quarter_fact row) (present_quarters row).
Proof. unfold row_facts. by intros -> ->. Qed.

End Expansion.

(** C3, as stated, read with "present" as "defined and not null" (the
    reading the claim itself gives for the quarterly values): a row whose
    region, the dimension on axis Y, is the blank string has both mapped
    dimensions present and four quarterly values, and yet no fact is
    emitted for it. *)
Lemma expansion_present_blank_counterexample :
  ¬ (defined_non_null (row_get row_blank_region (axis_x defaultMap)) = true →
     defined_non_null (row_get row_blank_region (axis_y defaultMap)) = true →
     length (processRawData [row_blank_region] defaultMap) =
     length (present_quarters row_blank_region)).
Proof.
  intros H.
  assert (Hlen : length (processRawData [row_blank_region] defaultMap) =
                 length (present_quarters row_blank_region))
    by (apply H; vm_compute; reflexivity).
  vm_compute in Hlen. discriminate Hlen.
Qed.

(** C3 (amended): within any collection of raw rows, a row contributes
    its own facts, in place.  If the values of the dimensions mapped to
    axis X and to axis Y are both truthy (there, and neither blank nor 0),
    the row yields one fact per quarterly value that is defined and not
    null, each carrying that quarter's value and the four original
    measures; if one of the two is falsy (missing, null or blank), the row
    yields no fact. *)
Theorem expansion_per_row (axisMapping : AxisMapping)
    (before after : list RawRow) (row : RawRow) :
  let emitted := processRawData [row] axisMapping in
  processRawData (before ++ row :: after) axisMapping =
    processRawData before axisMapping ++ emitted
      ++ processRawData after axisMapping
  ∧ (truthy (row_get row (axis_x axisMapping)) = true →
     truthy (row_get row (axis_y axisMapping)) = true →
     length emitted = length (present_quarters row)
     ∧ Forall (fun f =>
         ∃ q, q ∈ present_quarters row
              ∧ quarter f = VStr q ∧ value f = row_get row q
              ∧ Q1 f = row_get row "Q1" ∧ Q2 f = row_get row "Q2"
              ∧ Q3 f = row_get row "Q3" ∧ Q4 f = row_get row "Q4") emitted)
  ∧ (truthy (row_get row (axis_x axisMapping)) = false
     ∨ truthy (row_get row (axis_y axisMapping)) = false →
     emitted = []).
Proof.
  intros emitted. subst emitted. split; [|split].
  - change (row :: after) with ([row] ++ after).
    by rewrite !processRawData_app.
  - intros Hx Hy. rewrite processRawData_single, row_facts_kept by done.
    split; [by rewrite length_map|].
    apply Forall_forall. intros f Hf.
    apply list_elem_of_In, in_map_iff in Hf as (q & <- & Hq).
    exists q. by rewrite list_elem_of_In.
  - intros H. rewrite processRawData_single. by apply row_facts_skipped.
Qed.

Lemma expansion_per_row_witness :
  length (processRawData [row_asia] defaultMap) =
  length (present_quarters row_asia).
Proof.
  destruct (expansion_per_row defaultMap [] [] row_asia) as (_ & H & _).
  apply H; vm_compute; reflexivity.
Defined.

(** C7, as stated: the row whose continent is the blank string has a
    value for every dimension, and under the default mapping (continent on
    axis X) it is skipped, not expanded. *)
Lemma blank_axis_row_counterexample :
  ¬ (row_get row_blank_continent "continent" = VStr "" →
     length (processRawData [row_blank_continent] defaultMap) =
     length (present_quarters row_blank_continent)).
Proof.
  intros H.
  assert (Hlen : length (processRawData [row_blank_continent] defaultMap) =
                 length (present_quarters row_blank_continent))
    by (apply H; vm_compute; reflexivity).
  vm_compute in Hlen. discriminate Hlen.
Qed.

(** C7 (amended): a blank string is tolerated in a dimension that is
    mapped to neither axis X nor axis Y: when the two mapped values are
    truthy the row is expanded, one fact per quarterly value, and every
    fact carries the blank string as the value of that dimension.  A row
    whose value for the dimension on axis X or on axis Y is the blank
    string is skipped, like a row that lacks it. *)
Theorem blank_dimension_expansion (axisMapping : AxisMapping) (row : RawRow) :
  let emitted := processRawData [row] axisMapping in
  (∀ d, d ∈ ["continent"; "region"; "product"] →
        row_get row d = VStr "" →
        truthy (row_get row (axis_x axisMapping)) = true →
        truthy (row_get row (axis_y axisMapping)) = true →
        length emitted = length (present_quarters row)
        ∧ Forall (fun f => fact_get f d = VStr "") emitted)
  ∧ (row_get row (axis_x axisMapping) = VStr ""
     ∨ row_get row (axis_y axisMapping) = VStr "" →
     emitted = []).
Proof.
  intros emitted. subst emitted. split.
  - intros d Hd Hblank Hx Hy.
    rewrite processRawData_single, row_facts_kept by done.
    split; [by rewrite length_map|].
    apply Forall_forall. intros f Hf.
    apply list_elem_of_In, in_map_iff in Hf as (q & <- & _).
    rewrite <- Hblank.
    repeat (apply elem_of_cons in Hd as [-> | Hd]; [reflexivity|]).
    by apply elem_of_nil in Hd.
  - intros H. rewrite processRawData_single. apply row_facts_skipped.
    destruct H as [-> | ->]; [by left | by right].
Qed.

Lemma blank_dimension_expansion_witness :
  length (processRawData [row_blank_product] defaultMap) =
    length (present_quarters row_blank_product)
  ∧ Forall (fun f => fact_get f "product" = VStr "")
           (processRawData [row_blank_product] defaultMap).
Proof.
  destruct (blank_dimension_expansion defaultMap row_blank_product) as [H _].
  apply (H "product").
  - do 2 apply list_elem_of_further. apply list_elem_of_here.
  - vm_compute; reflexivity.
  - vm_compute; reflexivity.
  - vm_compute; reflexivity.
Defined.

(** ** Slice and dice *)

Section Filters.

Implicit Types (data : list Fact) (filters : gmap string jsval).

Lemma filter_all {A} (p : A → bool) (l : list A) :
  (∀ a, a ∈ l → p a = true) → List.filter p l = l.
Proof.
  induction l as [|a l IH]; intros H; simpl; [done|].
  rewrite (H a) by apply list_elem_of_here.
  f_equal. apply IH. intros b Hb. apply H. by apply list_elem_of_further.
Qed.

Lemma forallb_perm {A} (p : A → bool) (l k : list A) :
  l ≡ₚ k → forallb p l = forallb p k.
Proof.
  induction 1 as [|a l k _ IH|a b l|l k m _ IH1 _ IH2]; simpl.
  - done.
  - by rewrite IH.
  - destruct (p a), (p b); done.
  - by rewrite IH1.
Qed.

(** [applySlice] keeps exactly the items that pass the test [applyDice]
    runs on the entry [(dimension, v)]. *)
Lemma applySlice_filter data (dimension : string) (v : jsval) :
  dimension ≠ "" →
  applySlice data dimension v =
  List.filter (fun item => dice_entry item (dimension, v)) data.
Proof.
  intros Hd. unfold applySlice, dice_entry, field_includes.
  apply String.eqb_neq in Hd. rewrite Hd. cbn [orb fst snd].
  destruct (truthy v); cbn [negb].
  - done.
  - symmetry. by apply filter_all.
Qed.

Lemma applyDice_filter data filters :
  applyDice data filters =
  List.filter (fun item => forallb (dice_entry item) (map_to_list filters)) data.
Proof.
  unfold applyDice. destruct (size filters =? 0)%nat eqn:Hsz; [|done].
  apply Nat.eqb_eq, map_size_empty_iff in Hsz. subst filters.
  rewrite map_to_list_empty. symmetry. by apply filter_all.
Qed.

Lemma filter_and {A} (p q : A → bool) (l : list A) :
  List.filter (fun a => p a && q a) l = List.filter q (List.filter p l).
Proof.
  induction l as [|a l IH]; simpl; [done|].
  destruct (p a); simpl; [destruct (q a)|]; by rewrite IH.
Qed.

Lemma list_intersection_filter (p q : Fact → bool) data :
  list_intersection (List.filter p data) (List.filter q data) =
  List.filter (fun a => p a && q a) data.
Proof.
  assert (Hgen : ∀ l, (∀ a, a ∈ l → a ∈ data) →
    list_intersection (List.filter p l) (List.filter q data) =
    List.filter (fun a => p a && q a) l).
  { induction l as [|a l IH]; intros Hsub; simpl; [done|].
    assert (Hl : ∀ b, b ∈ l → b ∈ data)
      by (intros b Hb; apply Hsub; by apply list_elem_of_further).
    destruct (p a) eqn:Hp; simpl; [|by apply IH].
    destruct (decide_rel _ _ _) as [Hin|Hnin].
    - apply list_elem_of_In, filter_In in Hin as [_ Hq].
      rewrite Hq. by rewrite IH.
    - destruct (q a) eqn:Hq; [|by apply IH].
      destruct Hnin. apply list_elem_of_In, filter_In. split; [|done].
      apply list_elem_of_In, Hsub, list_elem_of_here. }
  by apply Hgen.
Qed.

Lemma applyDice_two data (d1 d2 : string) (v1 v2 : jsval) :
  d1 ≠ d2 →
  applyDice data (<[d2 := v2]> {[d1 := v1]}) =
  List.filter (fun item => dice_entry item (d1, v1) && dice_entry item (d2, v2))
              data.
Proof.
  intros Hne. rewrite applyDice_filter. apply filter_ext. intros item.
  rewrite (forallb_perm _ _ [(d2, v2); (d1, v1)]).
  - simpl. rewrite andb_true_r. apply andb_comm.
  - rewrite map_to_list_insert by (by apply lookup_singleton_ne).
    by rewrite map_to_list_singleton.
Qed.

Lemma applyDice_one data (d : string) (v : jsval) :
  applyDice data {[d := v]} =
  List.filter (fun item => dice_entry item (d, v)) data.
Proof.
  rewrite applyDice_filter. apply filter_ext. intros item.
  rewrite map_to_list_singleton. simpl. apply andb_true_r.
Qed.

End Filters.

(** C9: for a fact collection and two distinct, named dimensions, the
    dice by [{d1: v1, d2: v2}] is the intersection of the slice by
    [(d1, v1)] and the slice by [(d2, v2)] (equally, the second slice taken
    of the first), and the dice by the single filter [{d1: v1}] is the
    slice by [(d1, v1)]. *)
Theorem dice_is_intersection_of_slices
    (S : list Fact) (d1 d2 : string) (v1 v2 : jsval) :
  d1 ≠ "" → d2 ≠ "" → d1 ≠ d2 →
  applyDice S (<[d2 := v2]> {[d1 := v1]}) =
    list_intersection (applySlice S d1 v1) (applySlice S d2 v2)
  ∧ applyDice S (<[d2 := v2]> {[d1 := v1]}) =
    applySlice (applySlice S d1 v1) d2 v2
  ∧ applyDice S {[d1 := v1]} = applySlice S d1 v1.
Proof.
  intros H1 H2 Hne. split; [|split].
  - rewrite applyDice_two, !applySlice_filter by done.
    symmetry. apply list_intersection_filter.
  - rewrite applyDice_two, !applySlice_filter by done.
    apply filter_and.
  - by rewrite applyDice_one, applySlice_filter.
Qed.

Lemma dice_is_intersection_of_slices_witness :
  let S := processRawData [row_asia] defaultMap in
  applyDice S (<["region" := VStr "east"]> {["continent" := VStr "asia"]}) =
    list_intersection (applySlice S "continent" (VStr "asia"))
                      (applySlice S "region" (VStr "east"))
  ∧ applyDice S (<["region" := VStr "east"]> {["continent" := VStr "asia"]}) =
    applySlice (applySlice S "continent" (VStr "asia")) "region" (VStr "east")
  ∧ applyDice S {["continent" := VStr "asia"]} =
    applySlice S "continent" (VStr "asia").
Proof.
  intros S.
  apply (dice_is_intersection_of_slices S "continent" "region"
           (VStr "asia") (VStr "east")); discriminate.
Defined.

(** Written with one key twice, the filter object keeps the later value
    only, and the dice is the slice by that value. *)
Lemma applyDice_same_key (S : list Fact) (d : string) (v1 v2 : jsval) :
  d ≠ "" → applyDice S (<[d := v2]> {[d := v1]}) = applySlice S d v2.
Proof.
  intros Hd. rewrite insert_singleton_eq.
  by rewrite applyDice_one, applySlice_filter.
Qed.

(** ** The cube state machine *)

Lemma recompute_cubeData (st : AppState) :
  cubeData (recompute st) = processRawData (rawData st) (axisMapping st).
Proof.
  unfold recompute. destruct (rawData st) as [|row rows] eqn:Hraw; simpl.
  - reflexivity.
  - reflexivity.
Qed.

Lemma recompute_clears (st : AppState) :
  currentFilters (recompute st) = ∅ ∧ isRolledUp (recompute st) = false
  ∧ rawData (recompute st) = rawData st
  ∧ axisMapping (recompute st) = axisMapping st.
Proof. unfold recompute. by destruct (0 <? length (rawData st))%nat. Qed.

(** The size of the [Set] built from the three axes is 3 exactly when
    they are pairwise distinct. *)
Lemma size_list_to_set_le (l : list string) :
  size (list_to_set l : gset string) ≤ length l.
Proof.
  induction l as [|a l IH].
  - rewrite list_to_set_nil, size_empty. done.
  - rewrite list_to_set_cons, size_union_alt, size_singleton. cbn [length].
    assert (size (list_to_set l ∖ {[a]} : gset string)
            ≤ size (list_to_set l : gset string))
      by (apply subseteq_size; set_solver).
    lia.
Qed.

Lemma unique_axes_size (a b c : string) :
  size (list_to_set [a; b; c] : gset string) = 3 ↔ a ≠ b ∧ a ≠ c ∧ b ≠ c.
Proof.
  split.
  - intros Hsz.
    assert (Hdup : ∀ l : list string,
               length l = 2 →
               (list_to_set [a; b; c] : gset string) = list_to_set l → False).
    { intros l Hl Heq. pose proof (size_list_to_set_le l) as Hle.
      rewrite <- Heq in Hle. lia. }
    repeat split; intros ->.
    + apply (Hdup [b; c]); [done | set_solver].
    + apply (Hdup [b; c]); [done | set_solver].
    + apply (Hdup [a; c]); [done | set_solver].
  - intros (Hab & Hac & Hbc). apply (size_list_to_set [a; b; c]).
    repeat constructor; set_solver.
Qed.

Lemma handleApplyPivot_rejects (a b c : string) (st : AppState) :
  a = b ∨ a = c ∨ b = c →
  handleApplyPivot a b c st = (st, [AxesNotUnique]).
Proof.
  intros H. unfold handleApplyPivot.
  destruct (size (list_to_set [a; b; c] : gset string) =? 3)%nat eqn:Hsz; [|done].
  apply Nat.eqb_eq, unique_axes_size in Hsz as (? & ? & ?).
  by destruct H as [?|[?|?]].
Qed.

Lemma handleApplyPivot_accepts (a b c : string) (st : AppState) :
  a ≠ b → a ≠ c → b ≠ c →
  handleApplyPivot a b c st =
  (onPivot st {| axis_x := a; axis_y := b; axis_z := c |}, []).
Proof.
  intros Hab Hac Hbc. unfold handleApplyPivot.
  assert (Hsz : size (list_to_set [a; b; c] : gset string) = 3)
    by by apply unique_axes_size.
  apply Nat.eqb_eq in Hsz. by rewrite Hsz.
Qed.

(** C6: a pivot request whose three axes are not pairwise distinct is
    rejected: the cube state is returned as it was, and the error is
    written to the console; a request with three distinct axes is accepted
    without a diagnostic, and its mapping becomes the axis mapping of the
    state. *)
Theorem pivot_validation (pivotX pivotY pivotZ : string) (st : AppState) :
  (pivotX = pivotY ∨ pivotX = pivotZ ∨ pivotY = pivotZ →
   handleApplyPivot pivotX pivotY pivotZ st = (st, [AxesNotUnique]))
  ∧ (pivotX ≠ pivotY → pivotX ≠ pivotZ → pivotY ≠ pivotZ →
     (handleApplyPivot pivotX pivotY pivotZ st).2 = []
     ∧ axisMapping (handleApplyPivot pivotX pivotY pivotZ st).1 =
       {| axis_x := pivotX; axis_y := pivotY; axis_z := pivotZ |}).
Proof.
  split.
  - apply handleApplyPivot_rejects.
  - intros Hxy Hxz Hyz. rewrite handleApplyPivot_accepts by done.
    cbn [fst snd]. split; [done|]. unfold onPivot.
    by destruct (recompute_clears
                   (handlePivot st {| axis_x := pivotX; axis_y := pivotY;
                                      axis_z := pivotZ |})) as (_ & _ & _ & ->).
Qed.

Lemma pivot_validation_witness :
  handleApplyPivot "continent" "region" "region" initialState =
    (initialState, [AxesNotUnique])
  ∧ (handleApplyPivot "continent" "region" "quarter" initialState).2 = []
  ∧ axisMapping (handleApplyPivot "continent" "region" "quarter" initialState).1 =
    {| axis_x := "continent"; axis_y := "region"; axis_z := "quarter" |}.
Proof.
  split.
  - apply (pivot_validation "continent" "region" "region" initialState).
    right; right; reflexivity.
  - apply (pivot_validation "continent" "region" "quarter" initialState);
      discriminate.
Defined.

(** C4: an accepted pivot request leaves a state whose facts are the
    expansion of the raw data under the new mapping, with no filter and
    not rolled up, whatever the filters and roll-up status were before. *)
Theorem pivot_recomputes (pivotX pivotY pivotZ : string) (st : AppState) :
  pivotX ≠ pivotY → pivotX ≠ pivotZ → pivotY ≠ pivotZ →
  let newMapping := {| axis_x := pivotX; axis_y := pivotY; axis_z := pivotZ |} in
  let st' := (handleApplyPivot pivotX pivotY pivotZ st).1 in
  cubeData st' = processRawData (rawData st) newMapping
  ∧ currentFilters st' = ∅
  ∧ isRolledUp st' = false
  ∧ axisMapping st' = newMapping
  ∧ rawData st' = rawData st.
Proof.
  intros Hxy Hxz Hyz newMapping st'. subst st'.
  rewrite handleApplyPivot_accepts by done. cbn [fst]. unfold onPivot.
  fold newMapping. rewrite recompute_cubeData.
  destruct (recompute_clears (handlePivot st newMapping)) as (-> & -> & -> & ->).
  done.
Qed.

Lemma pivot_recomputes_witness :
  let st := handleRollUp
              (handleSlice (dataChanged initialState [row_asia])
                           "continent" (VStr "asia")) in
  let newMapping :=
    {| axis_x := "product"; axis_y := "region"; axis_z := "quarter" |} in
  let st' := (handleApplyPivot "product" "region" "quarter" st).1 in
  cubeData st' = processRawData (rawData st) newMapping
  ∧ currentFilters st' = ∅
  ∧ isRolledUp st' = false
  ∧ axisMapping st' = newMapping
  ∧ rawData st' = rawData st.
Proof.
  intros st.
  apply (pivot_recomputes "product" "region" "quarter" st); discriminate.
Defined.

(** C2: from a state that is not rolled up, roll-up followed by
    drill-down gives back the fact collection of that state, item for item
    and in order, and the state is not rolled up; roll-up has stored that
    collection as the snapshot, and drill-down returns the snapshot.  Raw
    data, axis mapping and filters are as before. *)
Theorem rollUp_drillDown_round_trip (st : AppState) :
  isRolledUp st = false →
  originalCubeDataBeforeRollUp (handleRollUp st) = cubeData st
  ∧ cubeData (handleRollUp st) = applyRollUp (cubeData st)
  ∧ isRolledUp (handleRollUp st) = true
  ∧ cubeData (handleDrillDown (handleRollUp st)) = cubeData st
  ∧ isRolledUp (handleDrillDown (handleRollUp st)) = false
  ∧ rawData (handleDrillDown (handleRollUp st)) = rawData st
  ∧ axisMapping (handleDrillDown (handleRollUp st)) = axisMapping st
  ∧ currentFilters (handleDrillDown (handleRollUp st)) = currentFilters st.
Proof.
  intros Hnot. unfold handleRollUp. rewrite Hnot. cbn [negb].
  unfold handleDrillDown. cbn. done.
Qed.

Lemma rollUp_drillDown_round_trip_witness :
  let st := dataChanged initialState [row_asia] in
  originalCubeDataBeforeRollUp (handleRollUp st) = cubeData st
  ∧ cubeData (handleRollUp st) = applyRollUp (cubeData st)
  ∧ isRolledUp (handleRollUp st) = true
  ∧ cubeData (handleDrillDown (handleRollUp st)) = cubeData st
  ∧ isRolledUp (handleDrillDown (handleRollUp st)) = false
  ∧ rawData (handleDrillDown (handleRollUp st)) = rawData st
  ∧ axisMapping (handleDrillDown (handleRollUp st)) = axisMapping st
  ∧ currentFilters (handleDrillDown (handleRollUp st)) = currentFilters st.
Proof.
  intros st. apply (rollUp_drillDown_round_trip st). reflexivity.
Defined.

(** C8: in a state that is already rolled up the roll-up event changes
    nothing: facts, snapshot, flag and every other component stay as they
    are. *)
Theorem rollUp_when_rolled_up (st : AppState) :
  isRolledUp st = true → handleRollUp st = st.
Proof. intros H. unfold handleRollUp. by rewrite H. Qed.

Lemma rollUp_when_rolled_up_witness :
  let st := handleRollUp (dataChanged initialState [row_asia]) in
  handleRollUp st = st.
Proof.
  intros st. apply (rollUp_when_rolled_up st). reflexivity.
Defined.

(** *** Where the snapshot is the baseline *)

Lemma initialState_baseline : snapshot_is_baseline initialState.
Proof. reflexivity. Qed.

Lemma dataChanged_baseline (st : AppState) (newData : list RawRow) :
  newData ≠ [] → snapshot_is_baseline (dataChanged st newData).
Proof.
  intros Hne. unfold snapshot_is_baseline, dataChanged, recompute.
  destruct newData as [|row rows]; [done|]. reflexivity.
Qed.

Lemma onPivot_baseline (st : AppState) (newMapping : AxisMapping) :
  rawData st ≠ [] → snapshot_is_baseline (onPivot st newMapping).
Proof.
  destruct st as [raw cube am fs ru snap]. cbn [rawData]. intros Hne.
  destruct raw as [|row rows]; [done|]. reflexivity.
Qed.

Lemma onReset_baseline (st : AppState) : snapshot_is_baseline (onReset st).
Proof.
  destruct st as [raw cube am fs ru snap].
  destruct raw as [|row rows]; reflexivity.
Qed.

Lemma handleSlice_baseline (st : AppState) (d : string) (v : jsval) :
  snapshot_is_baseline st → snapshot_is_baseline (handleSlice st d v).
Proof. done. Qed.

Lemma handleDice_baseline (st : AppState) (filters : gmap string jsval) :
  snapshot_is_baseline st → snapshot_is_baseline (handleDice st filters).
Proof. done. Qed.

(** C5, as stated: after a slice on continent and then a slice on
    region the filter set holds both criteria, not the second alone. *)
Lemma slice_filters_accumulate_counterexample :
  currentFilters
    (handleSlice
       (handleSlice (dataChanged initialState [row_asia])
                    "continent" (VStr "asia"))
       "region" (VStr "east"))
  ≠ {["region" := VStr "east"]}.
Proof.
  intros H. apply (f_equal (fun m => m !! "continent")) in H.
  vm_compute in H. discriminate H.
Qed.

(** C5 (amended): slice and dice filter the stored snapshot, never the
    filtered view, and leave the snapshot as it is: the facts after
    slice (d1, v1) and then slice (d2, v2) are the snapshot filtered by
    (d2, v2) alone, and the facts after a dice are the snapshot filtered by
    the dice.  A slice stores the previous filter set with the entry for
    its dimension set to its value, so after the two slices both criteria
    are held; a dice stores its own filter set in place of the previous
    one.  The snapshot is the unfiltered baseline B, the expansion of the
    raw data under the current mapping, in the initial state, after a
    recompute on raw data that is not empty (a change of the data to a
    table with rows, a pivot while there are rows) and after reset, and
    slice and dice keep it so; there the facts are B filtered.  It is not
    B in general: a recompute on empty raw data leaves the snapshot of the
    previous data in place, and a roll-up stores the visible cube in it. *)
Theorem slice_dice_from_baseline
    (st : AppState) (d1 d2 : string) (v1 v2 : jsval)
    (filters : gmap string jsval) :
  let snapshot := originalCubeDataBeforeRollUp st in
  let B := processRawData (rawData st) (axisMapping st) in
  let st1 := handleSlice st d1 v1 in
  let st2 := handleSlice st1 d2 v2 in
  let st3 := handleDice st1 filters in
  (cubeData st1 = applySlice snapshot d1 v1
   ∧ cubeData st2 = applySlice snapshot d2 v2
   ∧ currentFilters st2 = <[d2 := v2]> (<[d1 := v1]> (currentFilters st))
   ∧ cubeData st3 = applyDice snapshot filters
   ∧ currentFilters st3 = filters
   ∧ originalCubeDataBeforeRollUp st2 = snapshot
   ∧ originalCubeDataBeforeRollUp st3 = snapshot
   ∧ isRolledUp st2 = false ∧ isRolledUp st3 = false)
  ∧ (snapshot_is_baseline st →
     cubeData st1 = applySlice B d1 v1
     ∧ cubeData st2 = applySlice B d2 v2
     ∧ cubeData st3 = applyDice B filters
     ∧ snapshot_is_baseline st2 ∧ snapshot_is_baseline st3)
  ∧ snapshot_is_baseline initialState
  ∧ (∀ newData, newData ≠ [] → snapshot_is_baseline (dataChanged st newData))
  ∧ (∀ newMapping, rawData st ≠ [] →
                   snapshot_is_baseline (onPivot st newMapping))
  ∧ snapshot_is_baseline (onReset st)
  ∧ originalCubeDataBeforeRollUp (dataChanged st []) = snapshot
  ∧ (∀ newMapping, rawData st = [] →
                   originalCubeDataBeforeRollUp (onPivot st newMapping) =
                   snapshot)
  ∧ (isRolledUp st = false →
     originalCubeDataBeforeRollUp (handleRollUp st) = cubeData st).
Proof.
  intros snapshot B st1 st2 st3. subst snapshot B st1 st2 st3.
  split; [by cbn|].
  split.
  { intros Hbase. unfold snapshot_is_baseline in *. cbn. by rewrite Hbase. }
  split; [apply initialState_baseline|].
  split; [intros newData; apply dataChanged_baseline|].
  split; [intros newMapping; apply onPivot_baseline|].
  split; [apply onReset_baseline|].
  split; [done|].
  split.
  - intros newMapping Hraw. destruct st as [raw cube am fs ru snap].
    cbn [rawData] in Hraw. by subst raw.
  - intros Hru. unfold handleRollUp. by rewrite Hru.
Qed.

Lemma slice_dice_from_baseline_witness :
  let st := dataChanged initialState [row_asia; row_europe] in
  let B := processRawData [row_asia; row_europe] defaultMap in
  let st1 := handleSlice st "continent" (VStr "asia") in
  let st2 := handleSlice st1 "region" (VStr "west") in
  let st3 := handleDice st1 {["product" := VStr "b"]} in
  cubeData st1 = applySlice B "continent" (VStr "asia")
  ∧ cubeData st2 = applySlice B "region" (VStr "west")
  ∧ currentFilters st2 =
    <["region" := VStr "west"]> (<["continent" := VStr "asia"]> ∅)
  ∧ cubeData st3 = applyDice B {["product" := VStr "b"]}
  ∧ currentFilters st3 = {["product" := VStr "b"]}
  ∧ snapshot_is_baseline st2 ∧ snapshot_is_baseline st3
  ∧ isRolledUp st2 = false ∧ isRolledUp st3 = false.
Proof.
  intros st.
  destruct (slice_dice_from_baseline st "continent" "region"
              (VStr "asia") (VStr "west") {["product" := VStr "b"]})
    as ((_ & _ & Hf2 & _ & Hf3 & _ & _ & Hr2 & Hr3) & Hbase & _).
  destruct Hbase as (H1 & H2 & H3 & Hb2 & Hb3).
  { apply dataChanged_baseline. discriminate. }
  repeat split; assumption.
Defined.

(** After the table is emptied the snapshot is that of the rows loaded
    before, and a slice shows facts of rows that are gone: four here,
    while the baseline is empty. *)
Remark slice_after_emptied_data_filters_old_facts :
  let st := dataChanged (dataChanged initialState [row_asia]) [] in
  rawData st = []
  ∧ processRawData (rawData st) (axisMapping st) = []
  ∧ length (cubeData (handleSlice st "continent" (VStr "asia"))) = 4.
Proof. vm_compute. done. Qed.

(** After a roll-up of a sliced view the snapshot is that view, and the
    next slice filters it: the second slice below finds nothing, while the
    baseline holds four facts of the western region. *)
Remark slice_after_rollUp_filters_the_view :
  let st := dataChanged initialState [row_asia; row_europe] in
  let st' := handleSlice
               (handleRollUp (handleSlice st "continent" (VStr "asia")))
               "region" (VStr "west") in
  cubeData st' = []
  ∧ length (applySlice (processRawData [row_asia; row_europe] defaultMap)
                       "region" (VStr "west")) = 4.
Proof. vm_compute. done. Qed.

(** ** Roll-up *)

Lemma append_cons (c : ascii) (s1 s2 : string) :
  String c s1 +:+ s2 = String c (s1 +:+ s2).
Proof. reflexivity. Qed.

Lemma append_assoc (s1 s2 s3 : string) :
  (s1 +:+ s2) +:+ s3 = s1 +:+ (s2 +:+ s3).
Proof.
  induction s1 as [|c s1 IH]; [done|].
  rewrite !append_cons. by f_equal.
Qed.

Lemma length_append (s1 s2 : string) :
  String.length (s1 +:+ s2) = String.length s1 + String.length s2.
Proof.
  induction s1 as [|c s1 IH]; [done|].
  rewrite append_cons. cbn [String.length]. by rewrite IH.
Qed.

Lemma rollUp_step_first (item : Fact) :
  rollUp_step [] item =
  [(rollup_key item, add_value (rollup_init (rollup_key item) item) item)].
Proof.
  unfold rollUp_step, add_value, counts. cbn [map_has negb map_set map_get].
  rewrite String.eqb_refl.
  by destruct (truthy (quarter item) && not_undefined (value item)).
Qed.

Lemma rollUp_step_head (key : string) (current item : Fact) (m : JsMap) :
  rollup_key item = key →
  rollUp_step ((key, current) :: m) item = (key, add_value current item) :: m.
Proof.
  intros <-. unfold rollUp_step, add_value, counts.
  cbn [map_has negb map_set map_get]. rewrite String.eqb_refl.
  cbn [orb negb map_get]. rewrite String.eqb_refl.
  destruct (truthy (quarter item) && not_undefined (value item)); [|done].
  cbn [map_set]. by rewrite String.eqb_refl.
Qed.

Lemma applyRollUp_same_key (f1 f2 : Fact) :
  rollup_key f1 = rollup_key f2 →
  applyRollUp [f1; f2] =
  [set_quarter
     (add_value (add_value (rollup_init (rollup_key f1) f1) f1) f2)
     (VStr "Total")].
Proof.
  intros Hkey. unfold applyRollUp. cbn [fold_left].
  rewrite rollUp_step_first, rollUp_step_head by done. reflexivity.
Qed.


(** *** The map of [applyRollUp] *)

Lemma map_get_set_eq (k : string) (v : Fact) (m : JsMap) :
  map_get k (map_set k v m) = Some v.
Proof.
  induction m as [|[k' v'] m IH]; cbn [map_set map_get].
  - by rewrite String.eqb_refl.
  - destruct (String.eqb k k') eqn:Hk; cbn [map_get].
    + by rewrite String.eqb_refl.
    + by rewrite Hk.
Qed.

Lemma map_get_set_ne (k k' : string) (v : Fact) (m : JsMap) :
  k ≠ k' → map_get k (map_set k' v m) = map_get k m.
Proof.
  intros Hne. apply String.eqb_neq in Hne.
  induction m as [|[k0 v0] m IH]; cbn [map_set map_get].
  - by rewrite Hne.
  - destruct (String.eqb k' k0) eqn:Hk; cbn [map_get].
    + apply String.eqb_eq in Hk. subst k0. by rewrite Hne.
    + by rewrite IH.
Qed.

Lemma map_has_get (k : string) (m : JsMap) :
  map_has k m = bool_decide (is_Some (map_get k m)).
Proof.
  induction m as [|[k' v'] m IH]; cbn [map_has map_get].
  - symmetry. apply bool_decide_eq_false. by intros [? ?].
  - destruct (String.eqb k k'); cbn [orb]; [|done].
    symmetry. by apply bool_decide_eq_true.
Qed.

Lemma map_has_keys (k : string) (m : JsMap) :
  map_has k m = true ↔ k ∈ map fst m.
Proof.
  induction m as [|[k' v'] m IH]; cbn [map_has map fst].
  - split; [done | by intros ?%elem_of_nil].
  - rewrite elem_of_cons, <- IH, orb_true_iff, String.eqb_eq. done.
Qed.

Lemma map_set_keys (k : string) (v : Fact) (m : JsMap) :
  map fst (map_set k v m) =
  if map_has k m then map fst m else map fst m ++ [k].
Proof.
  induction m as [|[k' v'] m IH]; cbn [map_set map_has map fst app]; [done|].
  destruct (String.eqb k k') eqn:Hk; cbn [orb map fst].
  - apply String.eqb_eq in Hk. by subst.
  - rewrite IH. by destruct (map_has k m).
Qed.

Lemma map_get_entry (k : string) (e : Fact) (m : JsMap) :
  NoDup (map fst m) → (k, e) ∈ m → map_get k m = Some e.
Proof.
  induction m as [|[k' v'] m IH]; cbn [map fst map_get].
  - by intros _ ?%elem_of_nil.
  - intros [Hk' Hnd]%NoDup_cons [Heq | Hin]%elem_of_cons.
    + injection Heq as <- <-. by rewrite String.eqb_refl.
    + destruct (String.eqb k k') eqn:Hk; [|by apply IH].
      apply String.eqb_eq in Hk. subst k'. destruct Hk'.
      apply list_elem_of_fmap. by exists (k, e).
Qed.

(** One step of the loop, seen at the key of the item and at any other
    key. *)
Lemma rollUp_step_get_eq (m : JsMap) (item : Fact) :
  map_get (rollup_key item) (rollUp_step m item) =
  Some (add_value
          (default (rollup_init (rollup_key item) item)
                   (map_get (rollup_key item) m))
          item).
Proof.
  unfold rollUp_step, add_value, counts. rewrite map_has_get.
  destruct (map_get (rollup_key item) m) as [current|] eqn:Hget.
  - rewrite bool_decide_eq_true_2 by eauto. cbn [negb default].
    rewrite Hget.
    destruct (truthy (quarter item) && not_undefined (value item)).
    + apply map_get_set_eq.
    + done.
  - rewrite bool_decide_eq_false_2 by (by intros [? ?]). cbn [negb default].
    rewrite map_get_set_eq.
    destruct (truthy (quarter item) && not_undefined (value item)).
    + apply map_get_set_eq.
    + apply map_get_set_eq.
Qed.

Lemma rollUp_step_get_ne (k : string) (m : JsMap) (item : Fact) :
  k ≠ rollup_key item →
  map_get k (rollUp_step m item) = map_get k m.
Proof.
  intros Hne. unfold rollUp_step.
  set (m1 := if negb (map_has (rollup_key item) m)
             then map_set (rollup_key item)
                          (rollup_init (rollup_key item) item) m
             else m).
  assert (Hm1 : map_get k m1 = map_get k m).
  { subst m1. destruct (negb (map_has (rollup_key item) m)); [|done].
    by apply map_get_set_ne. }
  destruct (map_get (rollup_key item) m1) as [current|]; [|done].
  destruct (truthy (quarter item) && not_undefined (value item)); [|done].
  by rewrite map_get_set_ne.
Qed.

Lemma rollUp_step_keys (m : JsMap) (item : Fact) :
  map fst (rollUp_step m item) =
  if map_has (rollup_key item) m
  then map fst m
  else map fst m ++ [rollup_key item].
Proof.
  unfold rollUp_step.
  set (key := rollup_key item).
  set (m1 := if negb (map_has key m)
             then map_set key (rollup_init key item) m else m).
  assert (Hkeys : map fst m1 =
                  if map_has key m then map fst m else map fst m ++ [key]).
  { subst m1. destruct (map_has key m) eqn:Hhas; cbn [negb]; [done|].
    by rewrite map_set_keys, Hhas. }
  assert (Hhas1 : map_has key m1 = true).
  { apply map_has_keys. rewrite Hkeys.
    destruct (map_has key m) eqn:Hhas.
    - by apply map_has_keys.
    - apply elem_of_app. right. apply list_elem_of_here. }
  destruct (map_get key m1) as [current|]; [|done].
  destruct (truthy (quarter item) && not_undefined (value item)); [|done].
  by rewrite map_set_keys, Hhas1.
Qed.

Lemma group_snoc (k : string) (data : list Fact) (item : Fact) :
  group k (data ++ [item]) =
  group k data ++ (if String.eqb (rollup_key item) k then [item] else []).
Proof. unfold group. rewrite List.filter_app. reflexivity. Qed.

Lemma group_entry_snoc (k : string) (g : list Fact) (item : Fact) :
  group_entry k (g ++ [item]) =
  Some (add_value (default (rollup_init k item) (group_entry k g)) item).
Proof.
  destruct g as [|f0 rest]; [reflexivity|].
  rewrite <- app_comm_cons. cbn [group_entry default].
  by rewrite app_comm_cons, fold_left_app.
Qed.

(** The map after the loop: under each key, the entry of its group. *)
Lemma rollUp_fold_get (data : list Fact) (k : string) :
  map_get k (fold_left rollUp_step data []) = group_entry k (group k data).
Proof.
  induction data as [|item data IH] using rev_ind; [reflexivity|].
  rewrite fold_left_app, group_snoc. cbn [fold_left].
  destruct (String.eqb (rollup_key item) k) eqn:Hk.
  - apply String.eqb_eq in Hk. subst k.
    by rewrite rollUp_step_get_eq, IH, group_entry_snoc.
  - apply String.eqb_neq in Hk.
    rewrite rollUp_step_get_ne by done. by rewrite app_nil_r.
Qed.

Lemma rollUp_fold_keys_NoDup (data : list Fact) :
  NoDup (map fst (fold_left rollUp_step data [])).
Proof.
  induction data as [|item data IH] using rev_ind; [constructor|].
  rewrite fold_left_app. cbn [fold_left]. rewrite rollUp_step_keys.
  destruct (map_has _ _) eqn:Hhas; [done|].
  apply NoDup_app. split; [done|]. split; [|apply NoDup_singleton].
  intros k Hin ->%list_elem_of_singleton.
  apply map_has_keys in Hin. congruence.
Qed.

Lemma group_nonempty (k : string) (data : list Fact) :
  group k data ≠ [] ↔ ∃ f, f ∈ data ∧ rollup_key f = k.
Proof.
  unfold group. split.
  - destruct (List.filter _ data) as [|f rest] eqn:Hg; [done|]. intros _.
    assert (Hin : In f (List.filter (fun f => String.eqb (rollup_key f) k) data))
      by (rewrite Hg; by left).
    apply filter_In in Hin as [Hin Hk]. exists f.
    split; [by apply list_elem_of_In | by apply String.eqb_eq].
  - intros (f & Hin & Hk) Hnil.
    assert (Hf : In f (List.filter (fun f => String.eqb (rollup_key f) k) data)).
    { apply filter_In. split; [by apply list_elem_of_In|].
      by apply String.eqb_eq. }
    by rewrite Hnil in Hf.
Qed.

Lemma rollUp_fold_keys (data : list Fact) (k : string) :
  k ∈ map fst (fold_left rollUp_step data []) ↔
  ∃ f, f ∈ data ∧ rollup_key f = k.
Proof.
  rewrite <- map_has_keys, map_has_get, bool_decide_eq_true, rollUp_fold_get.
  rewrite <- group_nonempty.
  destruct (group k data); cbn [group_entry]; split.
  - by intros [? ?].
  - done.
  - done.
  - eauto.
Qed.

(** Folding [add_value] touches the total only. *)
Lemma fold_add_value_fields (g : list Fact) (e : Fact) :
  let r := fold_left add_value g e in
  id_ r = id_ e ∧ continent r = continent e ∧ region r = region e
  ∧ product r = product e ∧ quarter r = quarter e ∧ value r = value e
  ∧ Q1 r = Q1 e ∧ Q2 r = Q2 e ∧ Q3 r = Q3 e ∧ Q4 r = Q4 e.
Proof.
  revert e. induction g as [|f g IH]; intros e; cbn [fold_left]; [done|].
  specialize (IH (add_value e f)). cbn zeta in IH.
  destruct IH as (-> & -> & -> & -> & -> & -> & -> & -> & -> & ->).
  unfold add_value. by destruct (counts f).
Qed.

Lemma fold_add_value_total (g : list Fact) (e : Fact) (n : Z) :
  Forall is_quarter_fact g → Total e = VNum n →
  Total (fold_left add_value g e) = VNum (n + sum_values g).
Proof.
  revert e n. induction g as [|f g IH]; intros e n Hg He; cbn [fold_left].
  - cbn. rewrite He. f_equal. lia.
  - apply Forall_cons in Hg as [[Hc [m Hm]] Hg].
    rewrite (IH _ (n + m)%Z Hg).
    + cbn [sum_values fold_right]. unfold value_Z at 1. rewrite Hm.
      f_equal. fold (sum_values g). lia.
    + unfold add_value. rewrite Hc. cbn [Total set_Total].
      by rewrite He, Hm.
Qed.

(** [current.Total += item.value] over the facts filed under a key, one
    after the other: the additions made are those of the facts that pass
    the guard, in input order. *)
Lemma fold_add_value_sum (g : list Fact) (e : Fact) :
  Total (fold_left add_value g e) =
  fold_left js_add (map value (List.filter counts g)) (Total e).
Proof.
  revert e. induction g as [|f g IH]; intros e; [done|].
  cbn [fold_left List.filter]. rewrite IH. unfold add_value.
  destruct (counts f); [|done].
  by cbn [map fold_left Total set_Total].
Qed.

Lemma rollUp_fold_entry (data : list Fact) (k : string) (e : Fact) :
  (k, e) ∈ fold_left rollUp_step data [] →
  ∃ f0 rest, group k data = f0 :: rest
             ∧ e = fold_left add_value (f0 :: rest) (rollup_init k f0).
Proof.
  intros Hin.
  apply map_get_entry in Hin; [|apply rollUp_fold_keys_NoDup].
  rewrite rollUp_fold_get in Hin.
  destruct (group k data) as [|f0 rest]; [done|].
  injection Hin as <-. by exists f0, rest.
Qed.

Lemma applyRollUp_elem (data : list Fact) (g : Fact) :
  g ∈ applyRollUp data ↔
  ∃ k e, (k, e) ∈ fold_left rollUp_step data []
         ∧ g = set_quarter e (VStr "Total").
Proof.
  unfold applyRollUp, map_values. rewrite list_elem_of_fmap. split.
  - intros (e & -> & He). apply list_elem_of_fmap in He as ([k e'] & -> & He).
    by exists k, e'.
  - intros (k & e & He & ->). exists e. split; [done|].
    apply list_elem_of_fmap. by exists (k, e).
Qed.

Lemma applyRollUp_ids (data : list Fact) :
  map id_ (applyRollUp data) =
  map VStr (map fst (fold_left rollUp_step data [])).
Proof.
  unfold applyRollUp, map_values. rewrite !map_map.
  apply map_ext_in. intros [k e] Hin. cbn [fst snd set_quarter id_].
  apply list_elem_of_In, rollUp_fold_entry in Hin as (f0 & rest & _ & ->).
  by destruct (fold_add_value_fields (f0 :: rest) (rollup_init k f0)) as [-> _].
Qed.

(** [applyRollUp], key by key: the emitted facts carry pairwise distinct
    keys as their ids; every key of the input has its fact; and the fact
    of a key is built from the first input fact under that key, with the
    values of all facts under that key added to its total. *)
Theorem applyRollUp_by_key (data : list Fact) :
  NoDup (map id_ (applyRollUp data))
  ∧ (∀ f, f ∈ data →
          ∃ g, g ∈ applyRollUp data ∧ id_ g = VStr (rollup_key f))
  ∧ (∀ g, g ∈ applyRollUp data →
          ∃ k f0 rest,
            group k data = f0 :: rest
            ∧ g = set_quarter
                    (fold_left add_value (f0 :: rest) (rollup_init k f0))
                    (VStr "Total")).
Proof.
  split; [|split].
  - rewrite applyRollUp_ids. apply NoDup_fmap_2.
    + by intros ?? [= ->].
    + apply rollUp_fold_keys_NoDup.
  - intros f Hf.
    assert (Hk : VStr (rollup_key f) ∈ map id_ (applyRollUp data)).
    { rewrite applyRollUp_ids. apply list_elem_of_fmap.
      exists (rollup_key f). split; [done|].
      apply rollUp_fold_keys. by exists f. }
    apply list_elem_of_fmap in Hk as (g & Hid & Hg). by exists g.
  - intros g (k & e & Hin & ->)%applyRollUp_elem.
    apply rollUp_fold_entry in Hin as (f0 & rest & Hg & ->).
    by exists k, f0, rest.
Qed.

(** For quarter facts with integer values: each emitted fact is marked
    'Total', has the dimensions and the four quarterly measures of the
    first fact under its key, and its total is the sum of the values of
    the facts under its key (in the source, as long as the additions are
    exact). *)
Theorem applyRollUp_totals (data : list Fact) (g : Fact) :
  Forall is_quarter_fact data → g ∈ applyRollUp data →
  ∃ k f0,
    head (group k data) = Some f0
    ∧ id_ g = VStr k
    ∧ triple g = triple f0
    ∧ quarter g = VStr "Total"
    ∧ Q1 g = Q1 f0 ∧ Q2 g = Q2 f0 ∧ Q3 g = Q3 f0 ∧ Q4 g = Q4 f0
    ∧ Total g = VNum (sum_values (group k data)).
Proof.
  intros Hnum Hg.
  destruct (applyRollUp_by_key data) as (_ & _ & Hout).
  destruct (Hout g Hg) as (k & f0 & rest & Hgrp & ->).
  exists k, f0. rewrite Hgrp. split; [done|].
  pose proof (fold_add_value_fields (f0 :: rest) (rollup_init k f0)) as Hf.
  cbn zeta in Hf.
  destruct Hf as (Hid & Hc & Hr & Hp & _ & _ & H1 & H2 & H3 & H4).
  unfold triple. cbn [set_quarter id_ continent region product quarter
                      Q1 Q2 Q3 Q4 Total].
  rewrite Hid, Hc, Hr, Hp, H1, H2, H3, H4.
  repeat (split; [reflexivity|]).
  rewrite (fold_add_value_total _ _ 0).
  - done.
  - rewrite <- Hgrp. unfold group.
    apply Forall_forall. intros f Hf.
    apply list_elem_of_In, filter_In in Hf as [Hf _].
    rewrite Forall_forall in Hnum. by apply Hnum, list_elem_of_In.
  - done.
Qed.

(** The same for any values: the total is what the additions give, from 0
    and in input order, over the facts under the key that pass the
    guard. *)
Lemma applyRollUp_entry (data : list Fact) (g : Fact) :
  g ∈ applyRollUp data →
  ∃ k f0,
    head (group k data) = Some f0
    ∧ id_ g = VStr k
    ∧ triple g = triple f0
    ∧ quarter g = VStr "Total"
    ∧ Q1 g = Q1 f0 ∧ Q2 g = Q2 f0 ∧ Q3 g = Q3 f0 ∧ Q4 g = Q4 f0
    ∧ Total g =
      fold_left js_add (map value (List.filter counts (group k data)))
                (VNum 0).
Proof.
  intros Hg.
  destruct (applyRollUp_by_key data) as (_ & _ & Hout).
  destruct (Hout g Hg) as (k & f0 & rest & Hgrp & ->).
  exists k, f0. rewrite Hgrp. split; [done|].
  pose proof (fold_add_value_fields (f0 :: rest) (rollup_init k f0)) as Hf.
  cbn zeta in Hf.
  destruct Hf as (Hid & Hc & Hr & Hp & _ & _ & H1 & H2 & H3 & H4).
  unfold triple. cbn [set_quarter id_ continent region product quarter
                      Q1 Q2 Q3 Q4 Total].
  rewrite Hid, Hc, Hr, Hp, H1, H2, H3, H4.
  repeat (split; [reflexivity|]).
  by rewrite fold_add_value_sum.
Qed.

(** *** Order of the input *)

Lemma sum_values_filter_bound (p : Fact → bool) (l : list Fact) :
  (Z.abs (sum_values (List.filter p l)) ≤ sum_abs l)%Z.
Proof.
  induction l as [|f l IH]; cbn [List.filter]; [done|].
  cbn [sum_abs fold_right]. fold (sum_abs l).
  destruct (p f); [|lia].
  cbn [sum_values fold_right]. fold (sum_values (List.filter p l)). lia.
Qed.

Lemma sum_abs_perm (l k : list Fact) :
  l ≡ₚ k → sum_abs l = sum_abs k.
Proof.
  unfold sum_abs.
  induction 1 as [|a l k _ IH|a b l|l k m _ IH1 _ IH2]; cbn [fold_right].
  - done.
  - by rewrite IH.
  - lia.
  - by rewrite IH1.
Qed.

Lemma filter_perm {A} (p : A → bool) (l k : list A) :
  l ≡ₚ k → List.filter p l ≡ₚ List.filter p k.
Proof.
  induction 1 as [|a l k _ IH|a b l|l k m _ IH1 _ IH2]; cbn [List.filter].
  - done.
  - destruct (p a); by rewrite IH.
  - destruct (p a), (p b); try done. apply perm_swap.
  - by rewrite IH1.
Qed.

Lemma sum_values_perm (l k : list Fact) :
  l ≡ₚ k → sum_values l = sum_values k.
Proof.
  unfold sum_values.
  induction 1 as [|a l k _ IH|a b l|l k m _ IH1 _ IH2]; cbn [fold_right].
  - done.
  - by rewrite IH.
  - lia.
  - by rewrite IH1.
Qed.

(** On quarter facts whose values are integers with absolute values
    adding up to less than 2^53 (the range in which every addition of the
    source is exact, in whatever order the facts come), the total filed
    under a key does not depend on the order of the input: reordering the
    input leaves, for every emitted fact, a fact of the same key and the
    same total, and that total is an integer below 2^53 in absolute value.
    Outside this range the additions round and the order matters. *)
Theorem applyRollUp_total_order_independent
    (data data' : list Fact) (g : Fact) :
  data ≡ₚ data' → Forall is_quarter_fact data → exact_sums data →
  g ∈ applyRollUp data →
  exact_sums data'
  ∧ ∃ g' n, g' ∈ applyRollUp data' ∧ id_ g' = id_ g
            ∧ Total g = VNum n ∧ Total g' = VNum n ∧ (Z.abs n < 2 ^ 53)%Z.
Proof.
  intros Hperm Hnum Hexact Hg.
  assert (Hnum' : Forall is_quarter_fact data') by by rewrite <- Hperm.
  split; [unfold exact_sums; by rewrite <- (sum_abs_perm _ _ Hperm)|].
  destruct (applyRollUp_totals data g Hnum Hg)
    as (k & f0 & Hhd & Hid & _ & _ & _ & _ & _ & _ & Htot).
  assert (Hf0 : ∃ f, f ∈ data' ∧ rollup_key f = k).
  { apply group_nonempty. intros Hnil.
    assert (Hp : group k data ≡ₚ group k data') by by apply filter_perm.
    rewrite Hnil in Hp. apply Permutation_nil_r in Hp.
    by rewrite Hp in Hhd. }
  destruct Hf0 as (f & Hf & <-).
  destruct (applyRollUp_by_key data') as (_ & Hkey & _).
  destruct (Hkey f Hf) as (g' & Hg' & Hid').
  exists g', (sum_values (group (rollup_key f) data)).
  split; [done|]. split; [congruence|]. split; [done|].
  destruct (applyRollUp_totals data' g' Hnum' Hg')
    as (k' & _ & _ & Hid'' & _ & _ & _ & _ & _ & _ & Htot').
  assert (k' = rollup_key f) as -> by congruence.
  split.
  - rewrite Htot'. f_equal. apply sum_values_perm.
    symmetry. by apply filter_perm.
  - unfold exact_sums in Hexact.
    pose proof (sum_values_filter_bound
                  (fun f' => String.eqb (rollup_key f') (rollup_key f)) data).
    unfold group. lia.
Qed.

(** *** Groups and keys *)

Lemma rollup_key_triple (f f' : Fact) :
  triple f = triple f' → rollup_key f = rollup_key f'.
Proof. unfold triple, rollup_key. by intros [= -> -> ->]. Qed.

Lemma group_is_triple_group (data : list Fact) (f : Fact) :
  keys_separate data → f ∈ data →
  group (rollup_key f) data = triple_group (triple f) data.
Proof.
  intros Hsep Hf. unfold group, triple_group.
  apply filter_ext_in. intros f' Hf'%list_elem_of_In.
  destruct (String.eqb (rollup_key f') (rollup_key f)) eqn:Hk; symmetry.
  - apply String.eqb_eq in Hk. apply bool_decide_eq_true. by apply Hsep.
  - apply String.eqb_neq in Hk. apply bool_decide_eq_false.
    intros Ht. by apply Hk, rollup_key_triple.
Qed.

Lemma NoDup_map_inj {A B} (h : A → B) (l : list A) (a b : A) :
  NoDup (map h l) → a ∈ l → b ∈ l → h a = h b → a = b.
Proof.
  induction l as [|c l IH]; cbn [map]; [by intros _ ?%elem_of_nil|].
  intros [Hc Hnd]%NoDup_cons [-> | Ha]%elem_of_cons [-> | Hb]%elem_of_cons Heq.
  - done.
  - destruct Hc. rewrite Heq. apply list_elem_of_fmap. by exists b.
  - destruct Hc. rewrite <- Heq. apply list_elem_of_fmap. by exists a.
  - by apply IH.
Qed.

(** Where no two groups of the collection share a key, roll-up is what
    its documentation says: for the group of every input fact exactly one
    fact is emitted, marked 'Total', with the four quarterly measures of
    the group's first fact; its total is what [+=] gives from 0 over the
    values of the group's facts that pass the guard (a truthy quarter, a
    value that is not undefined), in input order; and every emitted fact
    is the fact of a group of the input. *)
Theorem applyRollUp_one_fact_per_group (data : list Fact) :
  keys_separate data →
  (∀ f, f ∈ data →
     ∃ g f0,
       g ∈ applyRollUp data
       ∧ triple g = triple f
       ∧ quarter g = VStr "Total"
       ∧ head (triple_group (triple f) data) = Some f0
       ∧ Q1 g = Q1 f0 ∧ Q2 g = Q2 f0 ∧ Q3 g = Q3 f0 ∧ Q4 g = Q4 f0
       ∧ Total g =
         fold_left js_add
           (map value (List.filter counts (triple_group (triple f) data)))
           (VNum 0)
       ∧ ∀ g', g' ∈ applyRollUp data → triple g' = triple f → g' = g)
  ∧ (∀ g, g ∈ applyRollUp data → ∃ f, f ∈ data ∧ triple g = triple f).
Proof.
  intros Hsep.
  destruct (applyRollUp_by_key data) as (Hnd & Hkey & _).
  assert (Hfirst : ∀ k f0, head (group k data) = Some f0 →
                           f0 ∈ data ∧ rollup_key f0 = k).
  { intros k f0 Hhd. unfold group in Hhd.
    destruct (List.filter _ data) as [|f1 rest] eqn:Hg; [done|].
    injection Hhd as ->.
    assert (Hin : In f0 (List.filter
                           (fun f => String.eqb (rollup_key f) k) data))
      by (rewrite Hg; by left).
    apply filter_In in Hin as [Hin Hk].
    split; [by apply list_elem_of_In | by apply String.eqb_eq]. }
  split.
  - intros f Hf. destruct (Hkey f Hf) as (g & Hg & Hid).
    destruct (applyRollUp_entry data g Hg)
      as (k & f0 & Hhd & Hid' & Ht & Hq & H1 & H2 & H3 & H4 & Htot).
    assert (k = rollup_key f) as -> by congruence.
    destruct (Hfirst _ _ Hhd) as [Hf0 Hk0].
    rewrite group_is_triple_group in Hhd, Htot by done.
    exists g, f0. repeat (split; [done || (rewrite Ht; by apply Hsep)|]).
    intros g' Hg' Ht'.
    apply (NoDup_map_inj id_ (applyRollUp data)); [done..|].
    destruct (applyRollUp_entry data g' Hg')
      as (k' & f0' & Hhd' & Hid'' & Ht'' & _).
    destruct (Hfirst _ _ Hhd') as [_ Hk0'].
    rewrite Hid'', Hid. f_equal. rewrite <- Hk0'.
    apply rollup_key_triple. congruence.
  - intros g Hg.
    destruct (applyRollUp_entry data g Hg)
      as (k & f0 & Hhd & _ & Ht & _).
    exists f0. split; [|done]. by apply (Hfirst k).
Qed.

Lemma keys_separate_b_true (data : list Fact) :
  keys_separate_b data = true → keys_separate data.
Proof.
  unfold keys_separate_b, keys_separate. intros Hb f f' Hf Hf' Hkey.
  rewrite forallb_forall in Hb.
  specialize (Hb f (proj1 (list_elem_of_In _ _) Hf)).
  rewrite forallb_forall in Hb.
  specialize (Hb f' (proj1 (list_elem_of_In _ _) Hf')).
  apply String.eqb_eq in Hkey. rewrite Hkey in Hb. cbn [negb orb] in Hb.
  by apply bool_decide_eq_true in Hb.
Qed.

Lemma is_quarter_fact_expanded (axisMapping : AxisMapping) (rows : list RawRow) :
  Forall (fun row => Forall (fun q => ∃ n, row_get row q = VNum n)
                            (present_quarters row)) rows →
  Forall is_quarter_fact (processRawData rows axisMapping).
Proof.
  intros Hrows. rewrite processRawData_flat_map.
  apply Forall_forall. intros f Hf.
  apply list_elem_of_In, in_flat_map in Hf as (row & Hrow & Hf).
  rewrite Forall_forall in Hrows.
  specialize (Hrows row (proj2 (list_elem_of_In _ _) Hrow)).
  unfold row_facts in Hf.
  destruct (negb _ || negb _); [done|].
  apply in_map_iff in Hf as (q & <- & Hq).
  rewrite Forall_forall in Hrows.
  destruct (Hrows q (proj2 (list_elem_of_In _ _) Hq)) as [n Hn].
  split; [|by exists n].
  unfold counts. cbn [quarter value quarter_fact]. rewrite Hn. cbn.
  unfold present_quarters, quarters in Hq. cbn [List.filter] in Hq.
  repeat (destruct (defined_non_null _) in Hq);
    repeat (destruct Hq as [<- | Hq]; [reflexivity|]); done.
Qed.

(** The two sample rows of distinct keys: two groups, two facts. *)
Example applyRollUp_two_groups :
  let data := processRawData [row_asia; row_europe] defaultMap in
  keys_separate data ∧ Forall is_quarter_fact data
  ∧ map (fun g => (id_ g, quarter g, Total g)) (applyRollUp data) =
    [ (VStr "Asia-East-A", VStr "Total", VNum 100);
      (VStr "Europe-West-B", VStr "Total", VNum 100) ].
Proof.
  intros data. split; [|split].
  - apply keys_separate_b_true. by vm_compute.
  - apply is_quarter_fact_expanded.
    repeat constructor; by eexists.
  - by vm_compute.
Qed.

(** *** Keys that collide *)

(** C10: a fact of the group (a-b, c, p) and a fact of the group
    (a, b-c, p) are of distinct groups, have the same aggregation key, and
    are rolled up into one fact, whose total is the sum of the two values,
    filed under the first fact's continent and region. *)
Theorem rollUp_dash_collision
    (a b c : string) (p : jsval) (n1 n2 : Z) (f1 f2 : Fact) :
  triple f1 = (VStr (a +:+ "-" +:+ b), VStr c, p) →
  triple f2 = (VStr a, VStr (b +:+ "-" +:+ c), p) →
  counts f1 = true → value f1 = VNum n1 →
  counts f2 = true → value f2 = VNum n2 →
  triple f1 ≠ triple f2
  ∧ rollup_key f1 = rollup_key f2
  ∧ ∃ g, applyRollUp [f1; f2] = [g]
         ∧ Total g = VNum (n1 + n2)
         ∧ quarter g = VStr "Total"
         ∧ triple g = triple f1.
Proof.
  intros Ht1 Ht2 Hc1 Hv1 Hc2 Hv2.
  assert (Hkey : rollup_key f1 = rollup_key f2).
  { unfold triple in Ht1, Ht2. unfold rollup_key.
    injection Ht1 as -> -> ->. injection Ht2 as -> -> ->.
    cbn [ToString]. by rewrite !append_assoc. }
  split; [|split; [done|]].
  - rewrite Ht1, Ht2. intros Heq. injection Heq as Heq _.
    apply (f_equal String.length) in Heq.
    rewrite !length_append in Heq. cbn in Heq. lia.
  - eexists. split; [by apply applyRollUp_same_key|].
    unfold add_value. rewrite Hc1, Hc2. cbn. rewrite Hv1, Hv2. done.
Qed.

Lemma rollUp_dash_collision_witness :
  let f1 := quarter_fact row_asia_pacific "Q1" in
  let f2 := quarter_fact row_pacific_east "Q2" in
  triple f1 ≠ triple f2
  ∧ rollup_key f1 = rollup_key f2
  ∧ ∃ g, applyRollUp [f1; f2] = [g]
         ∧ Total g = VNum (10 + 20)
         ∧ quarter g = VStr "Total"
         ∧ triple g = triple f1.
Proof.
  intros f1 f2.
  apply (rollUp_dash_collision "Asia" "Pacific" "East" (VStr "A") 10 20 f1 f2);
    vm_compute; reflexivity.
Defined.

(** C1, at the two rows ("Asia-Pacific", "East", "A") and
    ("Asia", "Pacific-East", "A"): their eight facts belong to two groups,
    and the roll-up emits a single fact, under the first group, whose
    total is the sum over both. *)
Theorem rollUp_merges_two_groups :
  let data := processRawData [row_asia_pacific; row_pacific_east] defaultMap in
  length data = 8
  ∧ remove_dups (map triple data) =
    [ (VStr "Asia-Pacific", VStr "East", VStr "A");
      (VStr "Asia", VStr "Pacific-East", VStr "A") ]
  ∧ applyRollUp data =
    [ {| id_ := VStr "Asia-Pacific-East-A";
         continent := VStr "Asia-Pacific";
         region := VStr "East";
         product := VStr "A";
         quarter := VStr "Total";
         value := VUndef;
         Q1 := VNum 10; Q2 := VNum 20; Q3 := VNum 30; Q4 := VNum 40;
         Total := VNum 200 |} ].
Proof. vm_compute. done. Qed.

(** [applyPivot] does not look at the mapping it is given. *)
Remark applyPivot_passthrough (data : list Fact) (m : AxisMapping) :
  applyPivot data m = m.
Proof. reflexivity. Qed.

(** The scenario of the data table's first row: four facts of values 10,
    20, 30 and 40; one rolled-up fact of total 100; drill-down gives the
    four facts back; the slice by 'asia' keeps all four and the slice by
    'europe' none. *)
Example scenario :
  let st := dataChanged initialState [row_asia] in
  map value (cubeData st) = [VNum 10; VNum 20; VNum 30; VNum 40]
  ∧ map Total (cubeData (handleRollUp st)) = [VNum 100]
  ∧ cubeData (handleDrillDown (handleRollUp st)) = cubeData st
  ∧ cubeData (handleSlice st "continent" (VStr "asia")) = cubeData st
  ∧ cubeData (handleSlice st "continent" (VStr "europe")) = [].
Proof. by vm_compute. Qed.

(** * Further properties of the engine *)

(** ** Expansion: warnings, shape and ids *)

Lemma fold_process_row_log (axisMapping : AxisMapping)
    (rows : list RawRow) (st : list Fact * list diag) :
  (fold_left (process_row axisMapping) rows st).2 =
  st.2 ++ map SkippedRow (List.filter (row_skipped axisMapping) rows).
Proof.
  revert st; induction rows as [|row rows IH]; intros st; cbn [fold_left].
  - cbn. by rewrite app_nil_r.
  - rewrite IH. cbn [List.filter]. unfold process_row, row_skipped.
    destruct (negb _ || negb _); cbn [fst snd map].
    + by rewrite <- app_assoc.
    + done.
Qed.

Lemma row_facts_elem (axisMapping : AxisMapping) (rows : list RawRow) (f : Fact) :
  f ∈ processRawData rows axisMapping ↔
  ∃ row q, row ∈ rows ∧ q ∈ quarters
           ∧ row_skipped axisMapping row = false
           ∧ defined_non_null (row_get row q) = true
           ∧ f = quarter_fact row q.
Proof.
  rewrite processRawData_flat_map, list_elem_of_In, in_flat_map.
  unfold row_facts, row_skipped, present_quarters. split.
  - intros (row & Hrow & Hf).
    destruct (negb _ || negb _) eqn:Hskip; [done|].
    apply in_map_iff in Hf as (q & <- & Hq).
    apply filter_In in Hq as [Hq Hdef].
    exists row, q. by rewrite !list_elem_of_In.
  - intros (row & q & Hrow & Hq & Hskip & Hdef & ->).
    exists row. rewrite <- list_elem_of_In. split; [done|].
    rewrite Hskip. apply in_map, filter_In.
    by rewrite <- list_elem_of_In.
Qed.

(** One warning per skipped row, in row order, and none for a row that
    is kept; the facts are those of the kept rows alone. *)
Theorem processRawData_warnings (axisMapping : AxisMapping) (rows : list RawRow) :
  (processRawData_run rows axisMapping).2 =
    map SkippedRow (List.filter (row_skipped axisMapping) rows)
  ∧ processRawData rows axisMapping =
    processRawData
      (List.filter (fun row => negb (row_skipped axisMapping row)) rows)
      axisMapping.
Proof.
  split.
  - unfold processRawData_run. by rewrite fold_process_row_log.
  - rewrite !processRawData_flat_map.
    induction rows as [|row rows IH]; [done|]. cbn [flat_map List.filter].
    destruct (row_skipped axisMapping row) eqn:Hskip; cbn [negb flat_map].
    + unfold row_facts. unfold row_skipped in Hskip. by rewrite Hskip.
    + by rewrite IH.
Qed.

(** An axis bound to a key the rows do not carry (as [quarter] on axis X
    or Y) leaves the cube empty: every row is skipped with a warning. *)
Theorem processRawData_axis_without_data
    (axisMapping : AxisMapping) (rows : list RawRow) :
  (∀ row, row ∈ rows →
          row !! axis_x axisMapping = None ∨ row !! axis_y axisMapping = None) →
  processRawData rows axisMapping = []
  ∧ (processRawData_run rows axisMapping).2 = map SkippedRow rows.
Proof.
  intros Hmiss.
  assert (Hall : ∀ row, row ∈ rows → row_skipped axisMapping row = true).
  { intros row Hrow. unfold row_skipped, row_get.
    destruct (Hmiss row Hrow) as [-> | ->]; cbn; [done|].
    by rewrite orb_true_r. }
  split.
  - rewrite processRawData_flat_map.
    induction rows as [|row rows IH]; [done|]. cbn [flat_map].
    rewrite IH.
    + assert (Hrow : row_skipped axisMapping row = true)
        by apply Hall, list_elem_of_here.
      unfold row_facts. unfold row_skipped in Hrow. by rewrite Hrow.
    + intros r Hr. by apply Hmiss, list_elem_of_further.
    + intros r Hr. by apply Hall, list_elem_of_further.
  - unfold processRawData_run. rewrite fold_process_row_log. cbn [snd app].
    f_equal. apply filter_all. apply Hall.
Qed.

Lemma processRawData_axis_without_data_witness :
  let pivoted :=
    {| axis_x := "quarter"; axis_y := "region"; axis_z := "continent" |} in
  processRawData [row_asia; row_europe] pivoted = []
  ∧ (processRawData_run [row_asia; row_europe] pivoted).2 =
    map SkippedRow [row_asia; row_europe].
Proof.
  intros pivoted.
  apply (processRawData_axis_without_data pivoted [row_asia; row_europe]).
  intros row Hrow. left.
  apply elem_of_cons in Hrow as [-> | Hrow]; [vm_compute; reflexivity|].
  apply elem_of_cons in Hrow as [-> | Hrow]; [vm_compute; reflexivity|].
  by apply elem_of_nil in Hrow.
Defined.

(** Every fact of the expansion is a quarter fact: its quarter is one of
    Q1..Q4, its value is what it holds under that quarter and is neither
    undefined nor null, it has no total, and its id is the id of its row
    followed by a dash and the quarter.  A row gives at most four. *)
Theorem processRawData_fact_shape
    (axisMapping : AxisMapping) (rows : list RawRow) (f : Fact) :
  f ∈ processRawData rows axisMapping →
  length (processRawData rows axisMapping) ≤ 4 * length rows
  ∧ ∃ row q, row ∈ rows ∧ q ∈ quarters
      ∧ quarter f = VStr q
      ∧ value f = fact_get f q
      ∧ defined_non_null (value f) = true
      ∧ Total f = VUndef
      ∧ id_ f = VStr (ToString (row_get row "id") +:+ "-" +:+ q)
      ∧ triple f = (row_get row "continent", row_get row "region",
                    row_get row "product").
Proof.
  intros Hf. split.
  - clear Hf. rewrite processRawData_flat_map.
    induction rows as [|row rows IH]; [done|].
    cbn [flat_map length]. rewrite length_app.
    assert (length (row_facts axisMapping row) ≤ 4); [|lia].
    unfold row_facts. destruct (negb _ || negb _); [cbn; lia|].
    rewrite length_map. unfold present_quarters.
    pose proof (filter_length_le
                  (fun q => defined_non_null (row_get row q)) quarters) as Hle.
    cbn [quarters length] in *. exact Hle.
  - apply row_facts_elem in Hf as (row & q & Hrow & Hq & _ & Hdef & ->).
    exists row, q. repeat (split; [done|]). split; [|done].
    unfold quarters in Hq.
    repeat (apply elem_of_cons in Hq as [-> | Hq]; [reflexivity|]).
    by apply elem_of_nil in Hq.
Qed.

Lemma processRawData_fact_shape_witness :
  let f := quarter_fact row_asia "Q3" in
  length (processRawData [row_asia] defaultMap) ≤ 4 * length [row_asia]
  ∧ ∃ row q, row ∈ [row_asia] ∧ q ∈ quarters
      ∧ quarter f = VStr q
      ∧ value f = fact_get f q
      ∧ defined_non_null (value f) = true
      ∧ Total f = VUndef
      ∧ id_ f = VStr (ToString (row_get row "id") +:+ "-" +:+ q)
      ∧ triple f = (row_get row "continent", row_get row "region",
                    row_get row "product").
Proof.
  intros f. apply (processRawData_fact_shape defaultMap [row_asia] f).
  vm_compute. do 2 apply list_elem_of_further. apply list_elem_of_here.
Defined.

Lemma append_inj_length (a b x y : string) :
  String.length a = String.length b → a +:+ x = b +:+ y → a = b ∧ x = y.
Proof.
  revert b. induction a as [|c a IH]; intros [|c' b] Hlen Heq; try done.
  rewrite !append_cons in Heq. injection Heq as -> Heq.
  cbn [String.length] in Hlen.
  destruct (IH b) as [-> ->]; [lia | done | done].
Qed.

Lemma quarter_length (q : string) : q ∈ quarters → String.length q = 2.
Proof.
  unfold quarters. intros Hq.
  repeat (apply elem_of_cons in Hq as [-> | Hq]; [reflexivity|]).
  by apply elem_of_nil in Hq.
Qed.

Lemma fact_id_inj (s s' q q' : string) :
  q ∈ quarters → q' ∈ quarters →
  s +:+ "-" +:+ q = s' +:+ "-" +:+ q' → s = s' ∧ q = q'.
Proof.
  intros Hq Hq' Heq.
  assert (Hlen : String.length s = String.length s').
  { apply (f_equal String.length) in Heq.
    rewrite !length_append, (quarter_length q), (quarter_length q') in Heq
      by done. lia. }
  destruct (append_inj_length _ _ _ _ Hlen Heq) as [-> Hrest].
  split; [done|]. by injection Hrest.
Qed.

Lemma row_facts_ids (axisMapping : AxisMapping) (row : RawRow) (v : jsval) :
  v ∈ map id_ (row_facts axisMapping row) →
  ∃ q, q ∈ quarters
       ∧ v = VStr (ToString (row_get row "id") +:+ "-" +:+ q).
Proof.
  unfold row_facts. destruct (negb _ || negb _); cbn [map].
  - by intros ?%elem_of_nil.
  - rewrite map_map. intros (q & -> & Hq)%list_elem_of_fmap.
    exists q. split; [|done].
    unfold present_quarters in Hq.
    by apply list_elem_of_In, filter_In in Hq as [Hq%list_elem_of_In _].
Qed.

Lemma row_facts_ids_NoDup (axisMapping : AxisMapping) (row : RawRow) :
  NoDup (map id_ (row_facts axisMapping row)).
Proof.
  unfold row_facts. destruct (negb _ || negb _); [constructor|].
  rewrite map_map. cbn [id_ quarter_fact].
  apply NoDup_fmap_2_strong.
  - intros q q' _ _ Heq. injection Heq as Heq.
    by do 2 apply (inj (String.append _)) in Heq.
  - unfold present_quarters.
    apply NoDup_ListNoDup, List.NoDup_filter, NoDup_ListNoDup.
    unfold quarters. repeat constructor; set_solver.
Qed.

(** Rows whose ids read differently give facts whose ids are pairwise
    distinct, whatever the axis mapping. *)
Theorem processRawData_ids_unique
    (axisMapping : AxisMapping) (rows : list RawRow) :
  NoDup (map (fun row => ToString (row_get row "id")) rows) →
  NoDup (map id_ (processRawData rows axisMapping)).
Proof.
  rewrite processRawData_flat_map.
  induction rows as [|row rows IH]; intros Hnd; [constructor|].
  cbn [map] in Hnd. apply NoDup_cons in Hnd as [Hrow Hnd].
  cbn [flat_map]. rewrite map_app. apply NoDup_app.
  split; [apply row_facts_ids_NoDup|]. split; [|by apply IH].
  intros v (q & Hq & ->)%row_facts_ids Hin. destruct Hrow.
  apply list_elem_of_fmap in Hin as (f & Hid & Hf).
  apply list_elem_of_In, in_flat_map in Hf as (row' & Hrow' & Hf).
  assert (Hv : id_ f ∈ map id_ (row_facts axisMapping row')).
  { apply list_elem_of_fmap. exists f. by rewrite list_elem_of_In. }
  apply row_facts_ids in Hv as (q' & Hq' & Hv).
  rewrite <- Hid in Hv. injection Hv as Hv.
  apply fact_id_inj in Hv as [-> _]; [|done..].
  apply list_elem_of_fmap. exists row'. by rewrite list_elem_of_In.
Qed.

Lemma processRawData_ids_unique_witness :
  NoDup (map id_ (processRawData [row_asia; with_id 2 row_europe] defaultMap)).
Proof.
  apply (processRawData_ids_unique defaultMap [row_asia; with_id 2 row_europe]).
  vm_compute. repeat constructor; set_solver.
Defined.

(** ** Slice and dice: what they keep *)

Lemma filter_sublist {A} (p : A → bool) (l : list A) :
  List.filter p l `sublist_of` l.
Proof.
  induction l as [|a l IH]; cbn [List.filter]; [constructor|].
  destruct (p a); by constructor.
Qed.

Lemma filter_sublist_impl {A} (p q : A → bool) (l : list A) :
  (∀ a, p a = true → q a = true) →
  List.filter p l `sublist_of` List.filter q l.
Proof.
  intros Himp. induction l as [|a l IH]; cbn [List.filter]; [constructor|].
  destruct (p a) eqn:Hp.
  - rewrite (Himp a Hp). by constructor.
  - destruct (q a); [by constructor | done].
Qed.

Lemma filter_idem {A} (p : A → bool) (l : list A) :
  List.filter p (List.filter p l) = List.filter p l.
Proof.
  apply filter_all. intros a Ha.
  by apply list_elem_of_In, filter_In in Ha as [_ Ha].
Qed.

Lemma filter_comm {A} (p q : A → bool) (l : list A) :
  List.filter p (List.filter q l) = List.filter q (List.filter p l).
Proof.
  rewrite <- !filter_and. apply filter_ext. intros a. apply andb_comm.
Qed.

Lemma applySlice_cases (data : list Fact) (dimension : string) (v : jsval) :
  applySlice data dimension v = data
  ∨ applySlice data dimension v =
    List.filter (fun item => dice_entry item (dimension, v)) data.
Proof.
  destruct (decide (dimension = "")) as [-> | Hd].
  - left. reflexivity.
  - right. by apply applySlice_filter.
Qed.

Lemma forallb_map_to_list (p : string * jsval → bool)
    (filters : gmap string jsval) :
  forallb p (map_to_list filters) = true ↔
  ∀ d v, filters !! d = Some v → p (d, v) = true.
Proof.
  rewrite forallb_forall. split.
  - intros H d v Hdv. by apply H, list_elem_of_In, elem_of_map_to_list.
  - intros H [d v] Hin. by apply H, elem_of_map_to_list, list_elem_of_In.
Qed.

(** A slice and a dice keep a sub-collection of the facts they are given,
    in the order given: nothing is added, changed or moved.  Doing the
    same slice, or the same dice, again changes nothing more. *)
Theorem slice_dice_keep_sublist
    (data : list Fact) (dimension : string) (v : jsval)
    (filters : gmap string jsval) :
  applySlice data dimension v `sublist_of` data
  ∧ applyDice data filters `sublist_of` data
  ∧ applySlice (applySlice data dimension v) dimension v =
    applySlice data dimension v
  ∧ applyDice (applyDice data filters) filters = applyDice data filters.
Proof.
  split; [|split; [|split]].
  - destruct (applySlice_cases data dimension v) as [-> | ->];
      [done | apply filter_sublist].
  - rewrite applyDice_filter. apply filter_sublist.
  - destruct (decide (dimension = "")) as [-> | Hd]; [done|].
    rewrite !applySlice_filter by done. apply filter_idem.
  - rewrite !applyDice_filter. apply filter_idem.
Qed.

(** Slices can be taken in either order, and a slice and a dice too. *)
Theorem slice_dice_commute
    (data : list Fact) (d1 d2 : string) (v1 v2 : jsval)
    (filters : gmap string jsval) :
  applySlice (applySlice data d1 v1) d2 v2 =
    applySlice (applySlice data d2 v2) d1 v1
  ∧ applySlice (applyDice data filters) d1 v1 =
    applyDice (applySlice data d1 v1) filters.
Proof.
  assert (Hslice : ∀ d w, ∃ p, ∀ l, applySlice l d w = List.filter p l).
  { intros d w. destruct (decide (d = "")) as [-> | Hd].
    - exists (fun _ => true). intros l. symmetry. by apply filter_all.
    - exists (fun item => dice_entry item (d, w)). intros l.
      by apply applySlice_filter. }
  destruct (Hslice d1 v1) as [p1 H1]. destruct (Hslice d2 v2) as [p2 H2].
  split.
  - rewrite !H1, !H2. apply filter_comm.
  - rewrite !H1, !applyDice_filter. apply filter_comm.
Qed.

Lemma toLowerCase_empty (s : string) : toLowerCase s = "" ↔ s = "".
Proof. by destruct s. Qed.

(** The case of the letters of a filter value does not matter: two values
    that agree once lower-cased select the same facts. *)
Theorem applySlice_case_insensitive
    (data : list Fact) (dimension v w : string) :
  toLowerCase v = toLowerCase w →
  applySlice data dimension (VStr v) = applySlice data dimension (VStr w).
Proof.
  intros Hvw. unfold applySlice. cbn [truthy ToString].
  assert (Hempty : String.eqb v "" = String.eqb w "").
  { destruct (String.eqb_spec v ""), (String.eqb_spec w ""); try done.
    - subst v. destruct n. apply toLowerCase_empty. by rewrite <- Hvw.
    - subst w. destruct n. apply toLowerCase_empty. by rewrite Hvw. }
  by rewrite Hempty, Hvw.
Qed.

Lemma applySlice_case_insensitive_witness :
  applySlice (processRawData [row_asia; row_europe] defaultMap)
             "continent" (VStr "ASIA") =
  applySlice (processRawData [row_asia; row_europe] defaultMap)
             "continent" (VStr "asia").
Proof.
  apply (applySlice_case_insensitive _ "continent" "ASIA" "asia").
  reflexivity.
Defined.

(** An entry of a dice whose value is blank (or otherwise falsy) does not
    restrict anything: the dice is the dice by the remaining entries, and
    by no entry at all it is the whole collection. *)
Theorem applyDice_ignores_blank_entries
    (data : list Fact) (filters : gmap string jsval) :
  applyDice data filters =
    applyDice data (filter (fun e => truthy e.2 = true) filters)
  ∧ ((∀ d v, filters !! d = Some v → truthy v = false) →
     applyDice data filters = data).
Proof.
  split.
  - rewrite !applyDice_filter. apply filter_ext. intros item.
    apply eq_true_iff_eq. rewrite !forallb_map_to_list. split.
    + intros H d v [Hdv _]%map_lookup_filter_Some. by apply H.
    + intros H d v Hdv. destruct (truthy v) eqn:Hv.
      * apply H. by apply map_lookup_filter_Some.
      * unfold dice_entry. cbn [snd]. by rewrite Hv.
  - intros Hblank. rewrite applyDice_filter. apply filter_all.
    intros item _. apply forallb_map_to_list. intros d v Hdv.
    unfold dice_entry. cbn [snd]. by rewrite (Hblank d v Hdv).
Qed.

Lemma applyDice_ignores_blank_entries_witness :
  let data := processRawData [row_asia; row_europe] defaultMap in
  let filters : gmap string jsval :=
    <["region" := VStr ""]> {["continent" := VStr ""]} in
  applyDice data filters =
    applyDice data (filter (fun e => truthy e.2 = true) filters)
  ∧ applyDice data filters = data.
Proof.
  intros data filters.
  destruct (applyDice_ignores_blank_entries data filters) as [H1 H2].
  split; [exact H1|]. apply H2. intros d v Hdv. subst filters.
  apply lookup_insert_Some in Hdv as [[_ <-] | [_ Hdv]]; [reflexivity|].
  by apply lookup_singleton_Some in Hdv as [_ <-].
Defined.

(** More entries only narrow a dice: the dice by a filter set that
    contains another is a sub-collection of the dice by the other. *)
Theorem applyDice_monotone
    (data : list Fact) (filters filters' : gmap string jsval) :
  filters ⊆ filters' →
  applyDice data filters' `sublist_of` applyDice data filters.
Proof.
  intros Hsub. rewrite !applyDice_filter. apply filter_sublist_impl.
  intros item. rewrite !forallb_map_to_list. intros H d v Hdv.
  apply H. by eapply lookup_weaken.
Qed.

Lemma applyDice_monotone_witness :
  let data := processRawData [row_asia; row_europe] defaultMap in
  applyDice data (<["region" := VStr "east"]> {["continent" := VStr "a"]})
  `sublist_of` applyDice data {["continent" := VStr "a"]}.
Proof.
  intros data. apply applyDice_monotone.
  apply insert_subseteq. reflexivity.
Defined.

Lemma prefix_spec (sub s : string) :
  String.prefix sub s = true ↔ ∃ post, s = sub +:+ post.
Proof.
  revert s. induction sub as [|c sub IH]; intros s.
  - split; [by exists s | by destruct s].
  - destruct s as [|c' s]; cbn [String.prefix].
    + split; [done | by intros [post ?]].
    + destruct (ascii_dec c c') as [<- | Hne].
      * rewrite IH. split; intros [post Hpost]; exists post.
        -- by rewrite append_cons, Hpost.
        -- rewrite append_cons in Hpost. by injection Hpost.
      * split; [done|]. intros [post Hpost].
        rewrite append_cons in Hpost. by injection Hpost.
Qed.

Lemma includes_spec (s sub : string) :
  includes s sub = true ↔ ∃ pre post, s = pre +:+ sub +:+ post.
Proof.
  induction s as [|c s IH]; cbn [includes].
  - rewrite orb_false_r, prefix_spec. split.
    + intros [post Hpost]. by exists "", post.
    + intros (pre & post & Hs). destruct pre; [by exists post|done].
  - rewrite orb_true_iff, prefix_spec, IH. split.
    + intros [[post Hpost] | (pre & post & Hs)].
      * by exists "", post.
      * exists (String c pre), post. by rewrite append_cons, Hs.
    + intros (pre & post & Hs). destruct pre as [|c' pre].
      * left. by exists post.
      * right. rewrite append_cons in Hs. injection Hs as _ Hs.
        by exists pre, post.
Qed.

(** A slice by a named dimension and a non-blank value keeps exactly the
    facts whose field, written as a string and lower-cased, contains the
    lower-cased value somewhere inside it: a partial match, not equality. *)
Theorem applySlice_substring
    (data : list Fact) (dimension : string) (v : jsval) (item : Fact) :
  dimension ≠ "" → truthy v = true →
  item ∈ applySlice data dimension v ↔
  item ∈ data
  ∧ ∃ pre post,
      toLowerCase (ToString (fact_get item dimension)) =
      pre +:+ toLowerCase (ToString v) +:+ post.
Proof.
  intros Hd Hv. rewrite applySlice_filter by done.
  rewrite list_elem_of_In, filter_In, <- list_elem_of_In.
  unfold dice_entry, field_includes. cbn [fst snd]. rewrite Hv. cbn [negb].
  by rewrite includes_spec.
Qed.

Lemma applySlice_substring_witness :
  quarter_fact row_europe "Q1"
  ∈ applySlice (processRawData [row_asia; row_europe] defaultMap)
               "continent" (VStr "ROP").
Proof.
  apply (applySlice_substring _ "continent" (VStr "ROP")); [done..|].
  split.
  - vm_compute. do 4 apply list_elem_of_further. apply list_elem_of_here.
  - by exists "eu", "e".
Defined.

(** ** Roll-up: size, and rolling up twice *)

Lemma applyRollUp_length (data : list Fact) :
  length (applyRollUp data) = length (fold_left rollUp_step data []).
Proof. unfold applyRollUp, map_values. by rewrite !length_map. Qed.

(** Roll-up emits as many facts as the input has distinct keys: never
    more than the input has facts, and none exactly when the input is
    empty. *)
Theorem applyRollUp_size (data : list Fact) :
  length (applyRollUp data) =
    size (list_to_set (map rollup_key data) : gset string)
  ∧ length (applyRollUp data) ≤ length data
  ∧ (applyRollUp data = [] ↔ data = []).
Proof.
  assert (Hsize : length (applyRollUp data) =
                  size (list_to_set (map rollup_key data) : gset string)).
  { rewrite applyRollUp_length.
    rewrite <- (length_map fst (fold_left rollUp_step data [])).
    rewrite <- (size_list_to_set (C := gset string))
      by apply rollUp_fold_keys_NoDup.
    f_equal. apply set_eq. intros k.
    rewrite !elem_of_list_to_set, rollUp_fold_keys, list_elem_of_fmap.
    split; intros (f & H1 & H2); exists f; by split. }
  split; [done|]. split.
  - rewrite Hsize. etrans; [apply size_list_to_set_le|]. by rewrite length_map.
  - split; [|by intros ->].
    intros Hnil. destruct data as [|f data]; [done|].
    apply (f_equal length) in Hnil. rewrite Hsize in Hnil.
    cbn [map] in Hnil. rewrite list_to_set_cons in Hnil.
    apply size_empty_inv in Hnil. set_solver.
Qed.

Lemma fold_add_value_uncounted (g : list Fact) (e : Fact) :
  Forall (fun f => counts f = false) g → fold_left add_value g e = e.
Proof.
  revert e. induction g as [|f g IH]; intros e Hg; cbn [fold_left]; [done|].
  apply Forall_cons in Hg as [Hf Hg]. rewrite IH by done.
  unfold add_value. by rewrite Hf.
Qed.

Lemma rollUp_fold_keys_of_NoDup (data : list Fact) :
  NoDup (map rollup_key data) →
  map fst (fold_left rollUp_step data []) = map rollup_key data.
Proof.
  induction data as [|item data IH] using rev_ind; intros Hnd; [done|].
  rewrite map_app in Hnd. apply NoDup_app in Hnd as (Hnd & Hfresh & _).
  rewrite fold_left_app. cbn [fold_left]. rewrite rollUp_step_keys.
  destruct (map_has _ _) eqn:Hhas.
  - apply map_has_keys in Hhas. rewrite IH in Hhas by done.
    destruct (Hfresh _ Hhas). cbn [map]. apply list_elem_of_here.
  - by rewrite IH, map_app.
Qed.

Lemma applyRollUp_key (data : list Fact) (g : Fact) :
  g ∈ applyRollUp data →
  id_ g = VStr (rollup_key g) ∧ value g = VUndef ∧ counts g = false.
Proof.
  intros Hg.
  destruct (applyRollUp_by_key data) as (_ & _ & Hout).
  destruct (Hout g Hg) as (k & f0 & rest & Hgrp & ->).
  pose proof (fold_add_value_fields (f0 :: rest) (rollup_init k f0)) as Hf.
  cbn zeta in Hf. destruct Hf as (Hid & Hc & Hr & Hp & _ & Hv & _).
  assert (Hk : rollup_key f0 = k).
  { assert (Hin : In f0 (group k data)) by (rewrite Hgrp; by left).
    apply filter_In in Hin as [_ Hin]. by apply String.eqb_eq. }
  unfold counts, rollup_key.
  cbn [set_quarter id_ continent region product value quarter].
  rewrite Hid, Hc, Hr, Hp, Hv. cbn [rollup_init id_ continent region product value].
  split; [by rewrite <- Hk|]. split; [done|].
  cbn. done.
Qed.

(** Rolling up what is already rolled up keeps one fact per key, under
    the same ids and in the same order, and sets every total to 0: the
    facts of a roll-up carry no value to add. *)
Theorem applyRollUp_twice (data : list Fact) :
  map id_ (applyRollUp (applyRollUp data)) = map id_ (applyRollUp data)
  ∧ Forall (fun g => Total g = VNum 0 ∧ quarter g = VStr "Total")
           (applyRollUp (applyRollUp data)).
Proof.
  assert (Hids : map id_ (applyRollUp data) =
                 map VStr (map rollup_key (applyRollUp data))).
  { rewrite map_map. apply map_ext_in. intros g Hg%list_elem_of_In.
    by apply applyRollUp_key in Hg as [-> _]. }
  split.
  - rewrite applyRollUp_ids, rollUp_fold_keys_of_NoDup; [done|].
    destruct (applyRollUp_by_key data) as (Hnd & _).
    rewrite Hids in Hnd. by apply NoDup_fmap in Hnd; [|by intros ?? [= ->]].
  - apply Forall_forall. intros g Hg.
    destruct (applyRollUp_by_key (applyRollUp data)) as (_ & _ & Hout).
    destruct (Hout g Hg) as (k & f0 & rest & Hgrp & ->).
    rewrite fold_add_value_uncounted; [done|].
    rewrite <- Hgrp. apply Forall_forall. intros f Hf.
    apply list_elem_of_In, filter_In in Hf as [Hf%list_elem_of_In _].
    by apply applyRollUp_key in Hf as (_ & _ & ?).
Qed.

Lemma applyRollUp_total_order_independent_witness :
  let data := processRawData [row_asia; row_europe] defaultMap in
  exact_sums (rev data)
  ∧ ∃ g' n, g' ∈ applyRollUp (rev data)
            ∧ id_ g' = VStr "Europe-West-B"
            ∧ VNum 100 = VNum n ∧ Total g' = VNum n ∧ (Z.abs n < 2 ^ 53)%Z.
Proof.
  intros data.
  apply (applyRollUp_total_order_independent data (rev data)
           {| id_ := VStr "Europe-West-B";
              continent := VStr "Europe"; region := VStr "West";
              product := VStr "B"; quarter := VStr "Total";
              value := VUndef;
              Q1 := VNum 10; Q2 := VNum 20; Q3 := VNum 30; Q4 := VNum 40;
              Total := VNum 100 |}).
  - apply Permutation_rev.
  - apply is_quarter_fact_expanded. repeat constructor; by eexists.
  - by vm_compute.
  - vm_compute. apply list_elem_of_further, list_elem_of_here.
Defined.

Lemma applyRollUp_one_fact_per_group_witness :
  let data := processRawData [row_asia; row_europe] defaultMap in
  ∃ g f0,
    g ∈ applyRollUp data
    ∧ triple g = triple (quarter_fact row_europe "Q3")
    ∧ quarter g = VStr "Total"
    ∧ head (triple_group (triple (quarter_fact row_europe "Q3")) data) = Some f0
    ∧ Q1 g = Q1 f0 ∧ Q2 g = Q2 f0 ∧ Q3 g = Q3 f0 ∧ Q4 g = Q4 f0
    ∧ Total g =
      fold_left js_add
        (map value
           (List.filter counts
              (triple_group (triple (quarter_fact row_europe "Q3")) data)))
        (VNum 0)
    ∧ ∀ g', g' ∈ applyRollUp data →
            triple g' = triple (quarter_fact row_europe "Q3") → g' = g.
Proof.
  intros data.
  destruct (applyRollUp_one_fact_per_group data) as [H _].
  - apply keys_separate_b_true. vm_compute. reflexivity.
  - apply (H (quarter_fact row_europe "Q3")).
    vm_compute. do 6 apply list_elem_of_further. apply list_elem_of_here.
Defined.

(** ** The state machine: drill-down, reset, emptied data *)

(** Without a roll-up to undo, drill-down clears the filters when there
    are any and shows the expansion of the raw data under the current
    mapping, leaving the snapshot alone; with no filter it does nothing.
    A slice always leaves a filter entry, so drill-down after any slice
    shows the whole expansion again. *)
Theorem drillDown_without_rollUp (st : AppState) :
  isRolledUp st = false →
  (currentFilters st ≠ ∅ →
     cubeData (handleDrillDown st) =
       processRawData (rawData st) (axisMapping st)
     ∧ currentFilters (handleDrillDown st) = ∅
     ∧ isRolledUp (handleDrillDown st) = false
     ∧ originalCubeDataBeforeRollUp (handleDrillDown st) =
       originalCubeDataBeforeRollUp st)
  ∧ (currentFilters st = ∅ → handleDrillDown st = st)
  ∧ (∀ d v,
       cubeData (handleDrillDown (handleSlice st d v)) =
         processRawData (rawData st) (axisMapping st)
       ∧ currentFilters (handleDrillDown (handleSlice st d v)) = ∅).
Proof.
  intros Hnot. split; [|split].
  - intros Hne. unfold handleDrillDown. rewrite Hnot.
    apply map_size_non_empty_iff in Hne.
    destruct (0 <? size (currentFilters st))%nat eqn:Hsz; [done|].
    apply Nat.ltb_ge in Hsz. lia.
  - intros Hempty. unfold handleDrillDown. rewrite Hnot, Hempty.
    by rewrite map_size_empty.
  - intros d v. unfold handleDrillDown, handleSlice.
    cbn [isRolledUp currentFilters rawData axisMapping].
    assert (Hne : size (<[d := v]> (currentFilters st)) ≠ 0).
    { apply map_size_non_empty_iff. apply insert_non_empty. }
    destruct (0 <? size (<[d := v]> (currentFilters st)))%nat eqn:Hsz; [done|].
    apply Nat.ltb_ge in Hsz. lia.
Qed.

Lemma drillDown_without_rollUp_witness :
  let st := handleDice (dataChanged initialState [row_asia; row_europe])
                       {["continent" := VStr "asia"]} in
  cubeData (handleDrillDown st) =
    processRawData [row_asia; row_europe] defaultMap
  ∧ currentFilters (handleDrillDown st) = ∅.
Proof.
  intros st.
  destruct (drillDown_without_rollUp st) as [H _]; [reflexivity|].
  destruct H as (H1 & H2 & _).
  - subst st. cbn [handleDice currentFilters]. apply insert_non_empty.
  - by split.
Defined.

(** Reset leaves the state in which the application would be had it just
    been started and given the current raw data: default mapping, no
    filter, not rolled up, cube and snapshot the expansion of the raw
    data.  Nothing else of the state before survives. *)
Theorem onReset_fresh_start (st : AppState) :
  onReset st = dataChanged initialState (rawData st)
  ∧ onReset (onReset st) = onReset st
  ∧ cubeData (onReset st) = processRawData (rawData st) defaultMap
  ∧ snapshot_is_baseline (onReset st).
Proof.
  destruct st as [raw cube am fs ru snap]. cbn [rawData].
  unfold snapshot_is_baseline.
  destruct raw as [|row rows]; done.
Qed.

(** When the raw data becomes empty the cube is emptied and the filters
    and the roll-up status are cleared, but the snapshot is kept: the next
    slice or dice shows facts of the data that is gone. *)
Theorem dataChanged_empty_keeps_snapshot
    (st : AppState) (d : string) (v : jsval) (filters : gmap string jsval) :
  let st0 := dataChanged st [] in
  cubeData st0 = [] ∧ rawData st0 = []
  ∧ currentFilters st0 = ∅ ∧ isRolledUp st0 = false
  ∧ originalCubeDataBeforeRollUp st0 = originalCubeDataBeforeRollUp st
  ∧ cubeData (handleSlice st0 d v) =
    applySlice (originalCubeDataBeforeRollUp st) d v
  ∧ cubeData (handleDice st0 filters) =
    applyDice (originalCubeDataBeforeRollUp st) filters.
Proof. done. Qed.

(** ** The state machine: what holds after any sequence of events *)

Lemma processRawData_quarter_shaped (rows : list RawRow) (m : AxisMapping) :
  Forall quarter_shaped (processRawData rows m).
Proof.
  apply Forall_forall. intros f Hf.
  apply row_facts_elem in Hf as (row & q & _ & Hq & _ & Hdef & ->).
  split; [by exists q | done].
Qed.

Lemma Forall_filter {A} (P : A → Prop) (p : A → bool) (l : list A) :
  Forall P l → Forall P (List.filter p l).
Proof.
  rewrite !Forall_forall. intros H a Ha. apply H.
  by apply list_elem_of_In, filter_In in Ha as [Ha%list_elem_of_In _].
Qed.

(** The invariant of the cube state. *)
Lemma step_invariant (st : AppState) (e : event) :
  axes_distinct (axisMapping st)
  ∧ Forall quarter_shaped (originalCubeDataBeforeRollUp st)
  ∧ (if isRolledUp st
     then cubeData st = applyRollUp (originalCubeDataBeforeRollUp st)
     else Forall quarter_shaped (cubeData st)) →
  axes_distinct (axisMapping (step st e))
  ∧ Forall quarter_shaped (originalCubeDataBeforeRollUp (step st e))
  ∧ (if isRolledUp (step st e)
     then cubeData (step st e) =
          applyRollUp (originalCubeDataBeforeRollUp (step st e))
     else Forall quarter_shaped (cubeData (step st e))).
Proof.
  intros (Hax & Hsnap & Hcube).
  assert (Hrec : ∀ s, axes_distinct (axisMapping s) →
                      Forall quarter_shaped (originalCubeDataBeforeRollUp s) →
                      axes_distinct (axisMapping (recompute s))
                      ∧ Forall quarter_shaped
                          (originalCubeDataBeforeRollUp (recompute s))
                      ∧ Forall quarter_shaped (cubeData (recompute s))).
  { intros s Ha Hs. unfold recompute.
    destruct (0 <? length (rawData s))%nat;
      cbn [axisMapping originalCubeDataBeforeRollUp cubeData];
      auto using processRawData_quarter_shaped. }
  destruct e as [newData | d v | filters | px py pz | | | ]; cbn [step].
  - destruct (Hrec (handleDataTableChange st newData)) as (? & ? & ?);
      [done..|].
    unfold dataChanged.
    by destruct (recompute_clears (handleDataTableChange st newData))
      as (_ & -> & _).
  - cbn. repeat split; [apply Hax.. | done |].
    destruct (applySlice_cases (originalCubeDataBeforeRollUp st) d v)
      as [-> | ->]; [done | by apply Forall_filter].
  - cbn. repeat split; [apply Hax.. | done |].
    rewrite applyDice_filter. by apply Forall_filter.
  - destruct (decide (px = py ∨ px = pz ∨ py = pz)) as [Hdup | Hok].
    + by rewrite handleApplyPivot_rejects.
    + rewrite handleApplyPivot_accepts by tauto. cbn [fst].
      destruct (Hrec (handlePivot st
                        {| axis_x := px; axis_y := py; axis_z := pz |}))
        as (? & ? & ?); [cbn; unfold axes_distinct; cbn; tauto | done |].
      unfold onPivot.
      by destruct (recompute_clears
                     (handlePivot st
                        {| axis_x := px; axis_y := py; axis_z := pz |}))
        as (_ & -> & _).
  - unfold handleRollUp.
    destruct (isRolledUp st) eqn:Hru; cbn [negb]; [by rewrite Hru|].
    by cbn.
  - unfold handleDrillDown.
    destruct (isRolledUp st) eqn:Hru; [by cbn|].
    destruct (0 <? size (currentFilters st))%nat; cbn.
    + auto using processRawData_quarter_shaped.
    + by rewrite Hru.
  - destruct (Hrec (handleReset st)) as (? & ? & ?).
    + cbn. unfold axes_distinct. cbn. done.
    + cbn. apply processRawData_quarter_shaped.
    + unfold onReset.
      by destruct (recompute_clears (handleReset st)) as (_ & -> & _).
Qed.

Lemma run_invariant (events : list event) :
  axes_distinct (axisMapping (run events))
  ∧ Forall quarter_shaped (originalCubeDataBeforeRollUp (run events))
  ∧ (if isRolledUp (run events)
     then cubeData (run events) =
          applyRollUp (originalCubeDataBeforeRollUp (run events))
     else Forall quarter_shaped (cubeData (run events))).
Proof.
  unfold run. induction events as [|e events IH] using rev_ind.
  - cbn. unfold axes_distinct. cbn. done.
  - rewrite fold_left_app. cbn [fold_left]. by apply step_invariant.
Qed.

(** After any sequence of events the three axes of the mapping are three
    different dimensions: a pivot request is the only way to change the
    mapping, and a degenerate one is never stored. *)
Theorem run_axes_distinct (events : list event) :
  axis_x (axisMapping (run events)) ≠ axis_y (axisMapping (run events))
  ∧ axis_x (axisMapping (run events)) ≠ axis_z (axisMapping (run events))
  ∧ axis_y (axisMapping (run events)) ≠ axis_z (axisMapping (run events)).
Proof. apply run_invariant. Qed.

(** After any sequence of events the cube is of one kind.  Not rolled
    up, it holds quarter facts only (a quarter Q1..Q4, a value, no total).
    Rolled up, it is the roll-up of the snapshot, the snapshot holds
    quarter facts only, and every fact of the cube is marked 'Total' and
    carries no value: a roll-up is never rolled up again. *)
Theorem run_cube_kind (events : list event) :
  (isRolledUp (run events) = false →
   Forall quarter_shaped (cubeData (run events)))
  ∧ (isRolledUp (run events) = true →
     cubeData (run events) =
       applyRollUp (originalCubeDataBeforeRollUp (run events))
     ∧ Forall quarter_shaped (originalCubeDataBeforeRollUp (run events))
     ∧ Forall (fun g => quarter g = VStr "Total" ∧ value g = VUndef)
              (cubeData (run events))).
Proof.
  destruct (run_invariant events) as (_ & Hsnap & Hcube).
  split; intros Hru; rewrite Hru in Hcube; [done|].
  split; [done|]. split; [done|].
  rewrite Hcube. apply Forall_forall. intros g Hg.
  split; [|by apply applyRollUp_key in Hg as (_ & ? & _)].
  destruct (applyRollUp_by_key (originalCubeDataBeforeRollUp (run events)))
    as (_ & _ & Hout).
  by destruct (Hout g Hg) as (k & f0 & rest & _ & ->).
Qed.

Lemma run_cube_kind_witness :
  let events :=
    [DataChanged [row_asia; row_europe];
     Slice "continent" (VStr "asia"); RollUp; RollUp] in
  cubeData (run events) =
    applyRollUp (originalCubeDataBeforeRollUp (run events))
  ∧ Forall quarter_shaped (originalCubeDataBeforeRollUp (run events))
  ∧ Forall (fun g => quarter g = VStr "Total" ∧ value g = VUndef)
           (cubeData (run events)).
Proof.
  intros events. apply (run_cube_kind events). reflexivity.
Defined.

(** ** The controls *)

(** The dice button drops the blank text boxes before it calls the
    engine, and this changes nothing of the result: the cube is the dice
    of the snapshot by all the boxes.  The filter set stored has no blank
    entry, and with every box blank it is empty and the cube is the whole
    snapshot. *)
Theorem handleApplyDice_result (c : Controls) (st : AppState) :
  cubeData (handleApplyDice c st) =
    applyDice (originalCubeDataBeforeRollUp st) (diceFilters c)
  ∧ (∀ d v, currentFilters (handleApplyDice c st) !! d = Some v →
            v ≠ VStr "" ∧ diceFilters c !! d = Some v)
  ∧ ((∀ d v, diceFilters c !! d = Some v → v = VStr "") →
     currentFilters (handleApplyDice c st) = ∅
     ∧ cubeData (handleApplyDice c st) = originalCubeDataBeforeRollUp st).
Proof.
  unfold handleApplyDice, activeFilters, not_blank.
  cbn [handleDice cubeData currentFilters].
  assert (Hsame : applyDice (originalCubeDataBeforeRollUp st)
                    (filter (fun e => negb (bool_decide (e.2 = VStr "")) = true)
                            (diceFilters c)) =
                  applyDice (originalCubeDataBeforeRollUp st) (diceFilters c)).
  { rewrite !applyDice_filter. apply filter_ext. intros item.
    apply eq_true_iff_eq. rewrite !forallb_map_to_list. split.
    - intros H d v Hdv. destruct (decide (v = VStr "")) as [-> | Hv]; [done|].
      apply H, map_lookup_filter_Some. split; [done|]. cbn [snd].
      by rewrite bool_decide_eq_false_2.
    - intros H d v [Hdv _]%map_lookup_filter_Some. by apply H. }
  split; [done|]. split.
  - intros d v [Hdv Hv]%map_lookup_filter_Some. split; [|done].
    cbn [snd] in Hv. apply negb_true_iff, bool_decide_eq_false in Hv. done.
  - intros Hblank. split.
    + apply map_empty. intros d. apply eq_None_not_Some. intros [v Hdv].
      apply map_lookup_filter_Some in Hdv as [Hdv Hv]. cbn [snd] in Hv.
      rewrite (Hblank d v Hdv) in Hv. done.
    + rewrite Hsame, applyDice_filter. apply filter_all.
      intros item _. apply forallb_map_to_list. intros d v Hdv.
      by rewrite (Hblank d v Hdv).
Qed.

Lemma handleApplyDice_result_witness :
  let c := handleDiceFilterChange
             (handleDiceFilterChange (initialControls defaultMap)
                                     "continent" "")
             "region" "" in
  let st := dataChanged initialState [row_asia; row_europe] in
  currentFilters (handleApplyDice c st) = ∅
  ∧ cubeData (handleApplyDice c st) = originalCubeDataBeforeRollUp st.
Proof.
  intros c st. apply (handleApplyDice_result c st).
  intros d v Hdv. subst c. cbn [handleDiceFilterChange diceFilters] in Hdv.
  apply lookup_insert_Some in Hdv as [[_ <-] | [_ Hdv]]; [reflexivity|].
  apply lookup_insert_Some in Hdv as [[_ <-] | [_ Hdv]]; [reflexivity|].
  cbn in Hdv. by rewrite lookup_empty in Hdv.
Defined.

(** With the X and Y axes chosen among the dimensions offered (which
    leave out 'quarter') and 'quarter' on the Z axis, a pivot request is
    turned down exactly when X and Y are the same dimension. *)
Theorem clickPivot_from_selects
    (availableDimensions : list string) (c : Controls) (st : AppState) :
  pivotX c ∈ dimensionsForSliceDice availableDimensions →
  pivotY c ∈ dimensionsForSliceDice availableDimensions →
  pivotZ c = "quarter" →
  (pivotX c = pivotY c → clickPivot c st = (st, [AxesNotUnique]))
  ∧ (pivotX c ≠ pivotY c →
     clickPivot c st =
     (onPivot st {| axis_x := pivotX c; axis_y := pivotY c;
                    axis_z := "quarter" |}, [])).
Proof.
  intros Hx Hy Hz. unfold clickPivot. rewrite Hz.
  assert (Hnq : ∀ d, d ∈ dimensionsForSliceDice availableDimensions →
                     d ≠ "quarter").
  { intros d Hd. unfold dimensionsForSliceDice in Hd.
    apply list_elem_of_In, filter_In in Hd as [_ Hd].
    by apply negb_true_iff, String.eqb_neq in Hd. }
  split.
  - intros Heq. apply handleApplyPivot_rejects. by left.
  - intros Hne. apply handleApplyPivot_accepts; [done | by apply Hnq..].
Qed.

Lemma clickPivot_from_selects_witness :
  let dims := ["continent"; "region"; "product"; "quarter"] in
  let c := {| sliceDimension := "continent"; sliceValue := "";
              diceFilters := ∅;
              pivotX := "region"; pivotY := "region"; pivotZ := "quarter" |} in
  clickPivot c initialState = (initialState, [AxesNotUnique]).
Proof.
  intros dims c.
  apply (clickPivot_from_selects dims c initialState);
    [vm_compute; apply list_elem_of_further, list_elem_of_here ..
    | reflexivity | reflexivity].
Defined.

(** ** The cube: axis values and indices *)

Lemma fold_set_add (l acc : list jsval) :
  NoDup acc →
  NoDup (fold_left set_add l acc)
  ∧ ∀ v, v ∈ fold_left set_add l acc ↔ v ∈ acc ∨ v ∈ l.
Proof.
  revert acc. induction l as [|a l IH]; intros acc Hnd; cbn [fold_left].
  - split; [done|]. intros v. rewrite elem_of_nil. tauto.
  - assert (Hstep : NoDup (set_add acc a)
                    ∧ ∀ v, v ∈ set_add acc a ↔ v ∈ acc ∨ v = a).
    { unfold set_add. case_bool_decide as Ha.
      - split; [done|]. intros v. split; [tauto|]. by intros [?| ->].
      - split.
        + apply NoDup_app. split; [done|]. split; [|apply NoDup_singleton].
          by intros v Hv ->%list_elem_of_singleton.
        + intros v. by rewrite elem_of_app, list_elem_of_singleton. }
    destruct Hstep as [Hnd' Hin'].
    destruct (IH _ Hnd') as [Hnd'' Hin'']. split; [done|].
    intros v. rewrite Hin'', Hin', elem_of_cons. tauto.
Qed.

Lemma set_values_spec (l : list jsval) :
  NoDup (set_values l) ∧ ∀ v, v ∈ set_values l ↔ v ∈ l.
Proof.
  destruct (fold_set_add l []) as [Hnd Hin]; [constructor|].
  split; [done|]. intros v. rewrite Hin, elem_of_nil. tauto.
Qed.

Lemma sort_le_total (a b : jsval) : sort_le a b = true ∨ sort_le b a = true.
Proof.
  destruct a, b; cbn [sort_le]; auto using String.leb_total.
Qed.

Lemma sort_insert_perm (a : jsval) (l : list jsval) : sort_insert a l ≡ₚ a :: l.
Proof.
  induction l as [|b l IH]; cbn [sort_insert]; [done|].
  destruct (sort_le a b); [done|]. rewrite IH. apply perm_swap.
Qed.

Lemma js_sort_perm (l : list jsval) : js_sort l ≡ₚ l.
Proof.
  induction l as [|a l IH]; cbn [js_sort fold_right]; [done|].
  rewrite sort_insert_perm. by constructor.
Qed.

Lemma sort_insert_sorted (a : jsval) (l : list jsval) :
  Sorted (fun x y => sort_le x y = true) l →
  Sorted (fun x y => sort_le x y = true) (sort_insert a l).
Proof.
  induction l as [|b l IH]; intros Hs; cbn [sort_insert].
  - by repeat constructor.
  - destruct (sort_le a b) eqn:Hab.
    + constructor; [done | by constructor].
    + apply Sorted_inv in Hs as [Hs Hhd]. constructor; [by apply IH|].
      assert (Hba : sort_le b a = true)
        by (destruct (sort_le_total a b); congruence).
      destruct l as [|c l]; cbn [sort_insert]; [by constructor|].
      destruct (sort_le a c); constructor; [done|].
      by apply HdRel_inv in Hhd.
Qed.

Lemma js_sort_sorted (l : list jsval) :
  Sorted (fun x y => sort_le x y = true) (js_sort l).
Proof.
  induction l as [|a l IH]; cbn [js_sort fold_right]; [constructor|].
  by apply sort_insert_sorted.
Qed.

(** The values along an axis: every value the facts hold under the
    dimension, each once, in the order of the default sort (by their
    strings, [undefined] after all others). *)
Theorem getUniqueValues_spec (data : list Fact) (dimension : string) :
  NoDup (getUniqueValues data dimension)
  ∧ (∀ v, v ∈ getUniqueValues data dimension ↔
          ∃ item, item ∈ data ∧ fact_get item dimension = v)
  ∧ Sorted (fun a b => sort_le a b = true) (getUniqueValues data dimension).
Proof.
  unfold getUniqueValues.
  destruct (set_values_spec (map (fun d => fact_get d dimension) data))
    as [Hnd Hin].
  split; [by rewrite js_sort_perm|]. split; [|apply js_sort_sorted].
  intros v. rewrite js_sort_perm, Hin, list_elem_of_fmap.
  split; intros (item & H1 & H2); exists item; by split.
Qed.

Lemma vmap_get_set_eq (k : jsval) (i : nat) (m : list (jsval * nat)) :
  vmap_get k (vmap_set k i m) = Some i.
Proof.
  induction m as [|[k' i'] m IH]; cbn [vmap_set vmap_get].
  - by rewrite bool_decide_eq_true_2.
  - case_bool_decide as Hk; cbn [vmap_get].
    + by rewrite bool_decide_eq_true_2.
    + by rewrite bool_decide_eq_false_2.
Qed.

Lemma vmap_get_set_ne (k k' : jsval) (i : nat) (m : list (jsval * nat)) :
  k ≠ k' → vmap_get k (vmap_set k' i m) = vmap_get k m.
Proof.
  intros Hne. induction m as [|[k0 i0] m IH]; cbn [vmap_set vmap_get].
  - by rewrite bool_decide_eq_false_2.
  - case_bool_decide as Hk; cbn [vmap_get].
    + subst k0. by rewrite !bool_decide_eq_false_2.
    + by rewrite IH.
Qed.

Lemma index_map_snoc (vals : list jsval) (v : jsval) :
  index_map (vals ++ [v]) = vmap_set v (length vals) (index_map vals).
Proof.
  unfold index_map. rewrite imap_app, fold_left_app. cbn.
  by rewrite Nat.add_0_r.
Qed.

(** On values without repetition, the index map gives each value its
    place in the list, and nothing to a value that is not in it. *)
Lemma index_map_lookup (vals : list jsval) (v : jsval) (i : nat) :
  NoDup vals →
  vmap_get v (index_map vals) = Some i ↔ vals !! i = Some v.
Proof.
  induction vals as [|w vals IH] using rev_ind; intros Hnd.
  - cbn. by rewrite lookup_nil.
  - apply NoDup_app in Hnd as (Hnd & Hfresh & _).
    rewrite index_map_snoc.
    destruct (decide (v = w)) as [-> | Hne].
    + rewrite vmap_get_set_eq. split.
      * intros [= <-]. by rewrite lookup_app_r, Nat.sub_diag.
      * intros Hi. f_equal.
        destruct (decide (i < length vals)) as [Hlt | Hge].
        -- rewrite lookup_app_l in Hi by done.
           apply list_elem_of_lookup_2 in Hi.
           destruct (Hfresh _ Hi). apply list_elem_of_here.
        -- apply lookup_lt_Some in Hi. rewrite length_app in Hi.
           cbn in Hi. lia.
    + rewrite vmap_get_set_ne, IH by done. split.
      * intros Hi. by apply lookup_app_l_Some.
      * intros Hi. apply lookup_app_Some in Hi as [Hi | [_ Hi]]; [done|].
        apply list_lookup_singleton_Some in Hi as [_ ?]. congruence.
Qed.

Lemma getUniqueValues_index (data : list Fact) (d : string) (item : Fact) :
  item ∈ data →
  ∃ i, vmap_get (fact_get item d) (index_map (getUniqueValues data d)) = Some i
       ∧ getUniqueValues data d !! i = Some (fact_get item d).
Proof.
  intros Hitem. unfold getUniqueValues.
  destruct (set_values_spec (map (fun f => fact_get f d) data)) as [Hnd Hin].
  assert (Hv : fact_get item d
               ∈ js_sort (set_values (map (fun f => fact_get f d) data))).
  { rewrite js_sort_perm. apply Hin, list_elem_of_fmap. by exists item. }
  apply list_elem_of_lookup in Hv as [i Hi]. exists i. split; [|done].
  apply index_map_lookup; [by rewrite js_sort_perm | done].
Qed.

(** Every fact of the data has its cell: the value it holds under the
    dimension of the X axis has an index, which is the place of that value
    among the X values, and likewise on the Y axis.  A block is never left
    out for want of an index. *)
Theorem layout_indices_defined
    (data : list Fact) (axisMapping : AxisMapping) (item : Fact) :
  item ∈ data →
  let L := layout data axisMapping in
  ∃ xi yi,
    vmap_get (fact_get item (axis_x axisMapping)) (xIndices L) = Some xi
    ∧ xValues L !! xi = Some (fact_get item (axis_x axisMapping))
    ∧ vmap_get (fact_get item (axis_y axisMapping)) (yIndices L) = Some yi
    ∧ yValues L !! yi = Some (fact_get item (axis_y axisMapping)).
Proof.
  intros Hitem L. subst L. cbn [layout xIndices yIndices xValues yValues].
  destruct (getUniqueValues_index data (axis_x axisMapping) item Hitem)
    as (xi & ? & ?).
  destruct (getUniqueValues_index data (axis_y axisMapping) item Hitem)
    as (yi & ? & ?).
  by exists xi, yi.
Qed.

Lemma layout_indices_defined_witness :
  let data := processRawData [row_asia; row_europe] defaultMap in
  let L := layout data defaultMap in
  let item := quarter_fact row_europe "Q2" in
  ∃ xi yi,
    vmap_get (fact_get item "continent") (xIndices L) = Some xi
    ∧ xValues L !! xi = Some (fact_get item "continent")
    ∧ vmap_get (fact_get item "region") (yIndices L) = Some yi
    ∧ yValues L !! yi = Some (fact_get item "region").
Proof.
  intros data L item.
  apply (layout_indices_defined data defaultMap item).
  vm_compute. do 5 apply list_elem_of_further. apply list_elem_of_here.
Defined.

(** ** The cube: blocks *)

Lemma item_step_numeric (data : list Fact) (axisMapping : AxisMapping)
    (blocks : list Block) (item : Fact) :
  numeric_quarters item → item ∈ data →
  item_step (layout data axisMapping) axisMapping (Some blocks) item =
  Some (blocks ++ quarter_blocks (layout data axisMapping) axisMapping item)
  ∧ length (quarter_blocks (layout data axisMapping) axisMapping item) = 4.
Proof.
  intros (n1 & n2 & n3 & n4 & H1 & H2 & H3 & H4) Hitem.
  destruct (getUniqueValues_index data (axis_x axisMapping) item Hitem)
    as (xi & Hx & _).
  destruct (getUniqueValues_index data (axis_y axisMapping) item Hitem)
    as (yi & Hy & _).
  unfold item_step, quarter_blocks.
  cbn [layout xIndices yIndices]. rewrite Hx, Hy.
  unfold quarters. cbn [fold_left imap]. unfold quarter_step, compose.
  cbv beta.
  change (fact_get item "Q1") with (Q1 item).
  change (fact_get item "Q2") with (Q2 item).
  change (fact_get item "Q3") with (Q3 item).
  change (fact_get item "Q4") with (Q4 item).
  rewrite H1, H2, H3, H4. unfold fixed_text.
  cbn [not_undefined toFixed0 ToString].
  change (vmap_get (VStr "Q1") (zIndices (layout data axisMapping)))
    with (Some 0).
  change (vmap_get (VStr "Q2") (zIndices (layout data axisMapping)))
    with (Some 1).
  change (vmap_get (VStr "Q3") (zIndices (layout data axisMapping)))
    with (Some 2).
  change (vmap_get (VStr "Q4") (zIndices (layout data axisMapping)))
    with (Some 3).
  cbn [negb andb].
  replace (not_undefined (Total item) && false) with false
    by (by destruct (not_undefined (Total item))).
  split; [|done]. by rewrite <- !app_assoc.
Qed.

Lemma cubeBlocks_numeric (data : list Fact) (axisMapping : AxisMapping) :
  Forall numeric_quarters data →
  cubeBlocks data axisMapping =
    Some (flat_map (quarter_blocks (layout data axisMapping) axisMapping) data)
  ∧ length (flat_map (quarter_blocks (layout data axisMapping) axisMapping)
                     data) = 4 * length data.
Proof.
  intros Hnum. unfold cubeBlocks.
  assert (Hgen : ∀ l acc,
    (∀ item, item ∈ l → item ∈ data) →
    fold_left (item_step (layout data axisMapping) axisMapping) l (Some acc) =
      Some (acc ++ flat_map (quarter_blocks (layout data axisMapping)
                                            axisMapping) l)
    ∧ length (flat_map (quarter_blocks (layout data axisMapping) axisMapping) l)
      = 4 * length l).
  { induction l as [|item l IH]; intros acc Hsub; cbn [fold_left flat_map].
    - by rewrite app_nil_r.
    - assert (Hitem : item ∈ data) by apply Hsub, list_elem_of_here.
      assert (Hn : numeric_quarters item)
        by (rewrite Forall_forall in Hnum; by apply Hnum).
      destruct (item_step_numeric data axisMapping acc item Hn Hitem)
        as [-> Hlen].
      destruct (IH (acc ++ quarter_blocks (layout data axisMapping)
                                          axisMapping item)) as [-> Hlen'].
      + intros i Hi. by apply Hsub, list_elem_of_further.
      + rewrite <- app_assoc. split; [done|].
        rewrite length_app, Hlen, Hlen'. cbn [length]. lia. }
  by apply (Hgen data []).
Qed.

Lemma cubeBlocks_quarter_blocks (data : list Fact) (axisMapping : AxisMapping) :
  Forall numeric_quarters data →
  ∃ blocks,
    cubeBlocks data axisMapping = Some blocks
    ∧ length blocks = 4 * length data
    ∧ Forall (fun b =>
        ∃ g q, g ∈ data ∧ q ∈ quarters
               ∧ block_key b = ToString (id_ g) +:+ "-" +:+ q
               ∧ toFixed0 (fact_get g q) = Some (block_text b)) blocks.
Proof.
  intros Hnum.
  destruct (cubeBlocks_numeric data axisMapping Hnum) as [Hb Hlen].
  eexists. split; [exact Hb|]. split; [exact Hlen|].
  apply Forall_forall. intros b Hb'.
  apply list_elem_of_In, in_flat_map in Hb' as (g & Hg & Hb').
  exists g. unfold quarter_blocks in Hb'.
  destruct (vmap_get _ _) as [xi|]; [|done].
  destruct (vmap_get _ _) as [yi|]; [|done].
  apply list_elem_of_In, list_elem_of_lookup in Hb' as [zi Hzi].
  apply list_lookup_imap_Some in Hzi as (q & Hq & ->).
  apply list_elem_of_lookup_2 in Hq.
  exists q. split; [by apply list_elem_of_In|].
  split; [done|]. split; [done|].
  rewrite Forall_forall in Hnum.
  destruct (Hnum g (proj2 (list_elem_of_In _ _) Hg))
    as (n1 & n2 & n3 & n4 & H1 & H2 & H3 & H4).
  cbn [block_at block_text]. unfold fixed_text, quarters in *.
  repeat (apply elem_of_cons in Hq as [-> | Hq];
          [first [ change (fact_get g "Q1") with (Q1 g); by rewrite H1
                 | change (fact_get g "Q2") with (Q2 g); by rewrite H2
                 | change (fact_get g "Q3") with (Q3 g); by rewrite H3
                 | change (fact_get g "Q4") with (Q4 g); by rewrite H4 ]|]).
  by apply elem_of_nil in Hq.
Qed.

Lemma numeric_quarters_expanded (axisMapping : AxisMapping) (rows : list RawRow) :
  Forall numeric_row rows →
  Forall numeric_quarters (processRawData rows axisMapping).
Proof.
  intros Hrows. apply Forall_forall. intros f Hf.
  apply row_facts_elem in Hf as (row & q & Hrow & _ & _ & _ & ->).
  rewrite Forall_forall in Hrows. specialize (Hrows row Hrow).
  destruct (Hrows "Q1") as [n1 H1]; [set_solver|].
  destruct (Hrows "Q2") as [n2 H2]; [set_solver|].
  destruct (Hrows "Q3") as [n3 H3]; [set_solver|].
  destruct (Hrows "Q4") as [n4 H4]; [set_solver|].
  by exists n1, n2, n3, n4.
Qed.

Lemma numeric_quarters_rolled_up (data : list Fact) :
  Forall numeric_quarters data → Forall numeric_quarters (applyRollUp data).
Proof.
  intros Hnum. apply Forall_forall. intros g Hg.
  destruct (applyRollUp_by_key data) as (_ & _ & Hout).
  destruct (Hout g Hg) as (k & f0 & rest & Hgrp & ->).
  assert (Hf0 : f0 ∈ data).
  { assert (Hin : In f0 (group k data)) by (rewrite Hgrp; by left).
    by apply filter_In in Hin as [Hin%list_elem_of_In _]. }
  rewrite Forall_forall in Hnum.
  destruct (Hnum f0 Hf0) as (n1 & n2 & n3 & n4 & H1 & H2 & H3 & H4).
  pose proof (fold_add_value_fields (f0 :: rest) (rollup_init k f0)) as Hf.
  cbn zeta in Hf.
  destruct Hf as (_ & _ & _ & _ & _ & _ & E1 & E2 & E3 & E4).
  exists n1, n2, n3, n4. unfold numeric_quarters.
  cbn [set_quarter Q1 Q2 Q3 Q4]. rewrite E1, E2, E3, E4. done.
Qed.

(** For rows whose four quarterly measures are numbers, the cube of the
    expansion draws four blocks for every fact, one per quarter, showing
    the four measures kept on the fact: the fact of one quarter is drawn
    at all four cells of its row, and a row that gave four facts is drawn
    four times over. *)
Theorem cubeBlocks_of_expansion (axisMapping : AxisMapping) (rows : list RawRow) :
  Forall numeric_row rows →
  let facts := processRawData rows axisMapping in
  cubeBlocks facts axisMapping =
    Some (flat_map (quarter_blocks (layout facts axisMapping) axisMapping) facts)
  ∧ length (flat_map (quarter_blocks (layout facts axisMapping) axisMapping)
                     facts) = 4 * length facts.
Proof.
  intros Hrows facts. apply cubeBlocks_numeric.
  by apply numeric_quarters_expanded.
Qed.

Lemma cubeBlocks_of_expansion_witness :
  let facts := processRawData [row_asia] defaultMap in
  cubeBlocks facts defaultMap =
    Some (flat_map (quarter_blocks (layout facts defaultMap) defaultMap) facts)
  ∧ length (flat_map (quarter_blocks (layout facts defaultMap) defaultMap)
                     facts) = 4 * length facts.
Proof.
  apply (cubeBlocks_of_expansion defaultMap [row_asia]).
  repeat constructor. intros q Hq. unfold quarters in Hq.
  repeat (apply elem_of_cons in Hq as [-> | Hq]; [by eexists|]).
  by apply elem_of_nil in Hq.
Defined.

(** After a roll-up of such facts the cube still draws the four quarters
    of every group, from the measures the rolled-up fact has kept: every
    block is the block of a quarter and shows what [toFixed(0)] gives for
    that quarter's measure, and no block shows a total. *)
Theorem cubeBlocks_of_rollUp (axisMapping : AxisMapping) (rows : list RawRow) :
  Forall numeric_row rows →
  let rolled := applyRollUp (processRawData rows axisMapping) in
  ∃ blocks,
    cubeBlocks rolled axisMapping = Some blocks
    ∧ length blocks = 4 * length rolled
    ∧ Forall (fun b =>
        ∃ g q, g ∈ rolled ∧ q ∈ quarters
               ∧ block_key b = ToString (id_ g) +:+ "-" +:+ q
               ∧ toFixed0 (fact_get g q) = Some (block_text b)) blocks.
Proof.
  intros Hrows rolled. subst rolled.
  apply cubeBlocks_quarter_blocks.
  apply numeric_quarters_rolled_up.
  by apply numeric_quarters_expanded.
Qed.

Lemma cubeBlocks_of_rollUp_witness :
  let rolled := applyRollUp (processRawData [row_asia] defaultMap) in
  ∃ blocks,
    cubeBlocks rolled defaultMap = Some blocks
    ∧ length blocks = 4 * length rolled
    ∧ Forall (fun b =>
        ∃ g q, g ∈ rolled ∧ q ∈ quarters
               ∧ block_key b = ToString (id_ g) +:+ "-" +:+ q
               ∧ toFixed0 (fact_get g q) = Some (block_text b)) blocks.
Proof.
  apply (cubeBlocks_of_rollUp defaultMap [row_asia]).
  repeat constructor. intros q Hq. unfold quarters in Hq.
  repeat (apply elem_of_cons in Hq as [-> | Hq]; [by eexists|]).
  by apply elem_of_nil in Hq.
Defined.

Lemma item_step_None (L : Layout) (axisMapping : AxisMapping) (l : list Fact) :
  fold_left (item_step L axisMapping) l None = None.
Proof. induction l as [|item l IH]; [done | apply IH]. Qed.

Lemma quarter_step_None (L : Layout) (item : Fact) (xIdx yIdx : option nat)
    (qs : list string) :
  fold_left (quarter_step L item xIdx yIdx) qs None = None.
Proof. induction qs as [|q qs IH]; [done | apply IH]. Qed.

Lemma zIndices_quarter (data : list Fact) (axisMapping : AxisMapping)
    (q : string) :
  q ∈ quarters →
  ∃ zi, vmap_get (VStr q) (zIndices (layout data axisMapping)) = Some zi.
Proof.
  unfold quarters. intros Hq.
  repeat (apply elem_of_cons in Hq as [-> | Hq]; [by eexists|]).
  by apply elem_of_nil in Hq.
Qed.

Lemma quarter_fold_throws (data : list Fact) (axisMapping : AxisMapping)
    (item : Fact) (xi yi : nat) (qs : list string) (q : string)
    (st : option (list Block * bool)) :
  q ∈ qs → (∀ q', q' ∈ qs → q' ∈ quarters) →
  fact_get item q ≠ VUndef → toFixed0 (fact_get item q) = None →
  fold_left (quarter_step (layout data axisMapping) item (Some xi) (Some yi))
            qs st = None.
Proof.
  intros Hq Hqs Hdef Hthrow. revert st.
  induction qs as [|q0 qs IH]; intros st; [by apply elem_of_nil in Hq|].
  cbn [fold_left].
  destruct st as [[blocks hasQuarters]|]; [|apply quarter_step_None].
  apply elem_of_cons in Hq as [<- | Hq].
  - unfold quarter_step at 2.
    destruct (zIndices_quarter data axisMapping q) as [zi ->];
      [apply Hqs, list_elem_of_here|].
    rewrite Hthrow.
    destruct (fact_get item q); [done|..]; apply quarter_step_None.
  - apply IH; [done|]. intros q' Hq'. by apply Hqs, list_elem_of_further.
Qed.

(** A fact that holds something other than a number (null, or a string)
    under one of the four quarters makes the cube throw: no block at all
    is drawn.  The expansion lets such facts through: a row with a null
    measure and another measure in place is expanded, and its facts keep
    the null. *)
Theorem cubeBlocks_throws_on_non_number
    (axisMapping : AxisMapping) (rows : list RawRow) (row : RawRow)
    (q q' : string) :
  row ∈ rows → row_skipped axisMapping row = false →
  q ∈ quarters → q' ∈ quarters →
  row_get row q ≠ VUndef → toFixed0 (row_get row q) = None →
  defined_non_null (row_get row q') = true →
  quarter_fact row q' ∈ processRawData rows axisMapping
  ∧ cubeBlocks (processRawData rows axisMapping) axisMapping = None.
Proof.
  intros Hrow Hkept Hq Hq' Hdef Hthrow Hpresent.
  assert (Hf : quarter_fact row q' ∈ processRawData rows axisMapping).
  { apply row_facts_elem. by exists row, q'. }
  split; [done|].
  set (facts := processRawData rows axisMapping) in *.
  assert (Hfq : fact_get (quarter_fact row q') q = row_get row q).
  { unfold quarters in Hq.
    repeat (apply elem_of_cons in Hq as [-> | Hq]; [reflexivity|]).
    by apply elem_of_nil in Hq. }
  unfold cubeBlocks.
  apply list_elem_of_split in Hf as (pre & post & Hsplit).
  rewrite Hsplit at 2. rewrite fold_left_app. cbn [fold_left].
  destruct (fold_left _ pre (Some [])) as [blocks|];
    [|apply item_step_None].
  assert (Hitem : quarter_fact row q' ∈ facts)
    by (rewrite Hsplit; apply elem_of_app; right; apply list_elem_of_here).
  destruct (getUniqueValues_index facts (axis_x axisMapping) _ Hitem)
    as (xi & Hx & _).
  destruct (getUniqueValues_index facts (axis_y axisMapping) _ Hitem)
    as (yi & Hy & _).
  unfold item_step at 2. cbn [layout xIndices yIndices]. rewrite Hx, Hy.
  rewrite (quarter_fold_throws facts axisMapping _ xi yi quarters q);
    [apply item_step_None | done | done | by rewrite Hfq | by rewrite Hfq].
Qed.

Lemma cubeBlocks_throws_on_non_number_witness :
  let row : RawRow := <["Q1" := VNull]> row_asia in
  quarter_fact row "Q2" ∈ processRawData [row] defaultMap
  ∧ cubeBlocks (processRawData [row] defaultMap) defaultMap = None.
Proof.
  intros row.
  apply (cubeBlocks_throws_on_non_number defaultMap [row] row "Q1" "Q2").
  - apply list_elem_of_here.
  - vm_compute; reflexivity.
  - apply list_elem_of_here.
  - apply list_elem_of_further, list_elem_of_here.
  - vm_compute. discriminate.
  - vm_compute; reflexivity.
  - vm_compute; reflexivity.
Defined.

(** ** The cube: positions *)

(** Along an axis of [n] values the cells are four units apart and are
    centred on the origin: the cell of index [idx] and the cell of index
    [n - 1 - idx] lie opposite each other, so two indices have the same
    position only when they are the same index. *)
Theorem axis_position_centred (n idx idx' : nat) :
  idx < n → idx' < n →
  (axis_position n idx + axis_position n (n - 1 - idx) == 0)%Q
  ∧ (axis_position n (S idx) - axis_position n idx == 4)%Q
  ∧ ((axis_position n idx == axis_position n idx')%Q → idx = idx').
Proof.
  intros Hidx Hidx'.
  unfold axis_position, axis_offset, axis_extent, CUBE_SIZE, SPACING.
  split; [|split].
  - replace (Z.of_nat (n - 1 - idx))
      with (Z.of_nat n + - (1) + - Z.of_nat idx)%Z by lia.
    rewrite !inject_Z_plus, !inject_Z_opp. change (inject_Z 1) with 1%Q.
    field.
  - replace (Z.of_nat (S idx)) with (Z.of_nat idx + 1)%Z by lia.
    rewrite inject_Z_plus. change (inject_Z 1) with 1%Q. field.
  - intros Heq.
    remember (- (inject_Z (Z.of_nat n) * (3 + 1) - 1) / 2 + 3 / 2)%Q as o.
    remember (inject_Z (Z.of_nat idx)) as a eqn:Ha.
    remember (inject_Z (Z.of_nat idx')) as b eqn:Hb.
    assert (Hz : (a == b)%Q). { clear - Heq. lra. }
    subst a b. apply (proj1 (inject_Z_injective _ _)) in Hz.
    by apply Nat2Z.inj in Hz.
Qed.

Lemma axis_position_centred_witness :
  (axis_position 5 0 + axis_position 5 (5 - 1 - 0) == 0)%Q
  ∧ (axis_position 5 (S 0) - axis_position 5 0 == 4)%Q
  ∧ ((axis_position 5 0 == axis_position 5 4)%Q → 0 = 4).
Proof. apply (axis_position_centred 5 0 4); lia. Defined.

(** ** The data table *)

Lemma strict_eq_spec (a b : jsval) :
  b ≠ VNaN → strict_eq a b = true ↔ a = b.
Proof.
  intros Hb. unfold strict_eq.
  destruct a, b; try done; by rewrite bool_decide_eq_true.
Qed.

Lemma math_max_numeric (StringToNumber : string → jsval)
    (rest : list jsval) (n : Z) :
  Forall (fun v => ∃ m, v = VNum m) rest →
  ∃ M, math_max StringToNumber (VNum n) rest = VNum M
       ∧ (n ≤ M)%Z
       ∧ ∀ m, VNum m ∈ rest → (m ≤ M)%Z.
Proof.
  unfold math_max. cbn [to_number]. revert n.
  induction rest as [|v rest IH]; intros n Hrest; cbn [fold_left].
  - exists n. split; [done|]. split; [lia|]. by intros m ?%elem_of_nil.
  - apply Forall_cons in Hrest as [[k ->] Hrest]. cbn [to_number max2].
    destruct (IH (Z.max n k) Hrest) as (M & -> & Hle & Hall).
    exists M. split; [done|]. split; [lia|].
    intros m [[= ->] | Hm]%elem_of_cons; [lia | by apply Hall].
Qed.

(** Adding a row to a table whose ids are numbers gives the new row an
    id above every id in the table (1 in an empty table), appends it after
    the rows there, which stay as they are, and empties the inputs of the
    row to add. *)
Theorem handleAddRow_fresh_id
    (StringToNumber : string → jsval) (t : TableState) :
  (∀ row, row ∈ tableData t → ∃ n, row_get row "id" = VNum n) →
  newRow t !! "id" = None →
  ∃ n, tableData (handleAddRow StringToNumber t) =
         tableData t ++ [<["id" := VNum n]> (newRow t)]
       ∧ (∀ row m, row ∈ tableData t → row_get row "id" = VNum m → (m < n)%Z)
       ∧ (tableData t = [] → n = 1%Z)
       ∧ newRow (handleAddRow StringToNumber t) = emptyNewRow.
Proof.
  intros Hids Hnew. unfold handleAddRow. cbn [tableData newRow].
  assert (Hrow : ∀ x, newRow t ∪ {["id" := x]} = <["id" := x]> (newRow t)).
  { intros x. rewrite insert_union_singleton_l.
    apply map_union_comm, map_disjoint_singleton_r_2. exact Hnew. }
  destruct (tableData t) as [|row rows] eqn:Htable.
  - exists 1%Z. rewrite Hrow. split; [done|]. split; [|done].
    by intros row m ?%elem_of_nil.
  - destruct (Hids row) as [n Hn]; [apply list_elem_of_here|].
    destruct (math_max_numeric StringToNumber
                (map (fun r => row_get r "id") rows) n) as (M & HM & Hle & Hall).
    { apply Forall_forall. intros v (r & -> & Hr)%list_elem_of_fmap.
      apply Hids. by apply list_elem_of_further. }
    exists (M + 1)%Z. rewrite Hn, HM, Hrow. cbn [js_add].
    split; [done|]. split; [|done].
    intros r m [-> | Hr]%elem_of_cons Hm.
    + rewrite Hn in Hm. injection Hm as <-. lia.
    + assert (m ≤ M)%Z; [|lia]. apply Hall.
      apply list_elem_of_fmap. exists r. by rewrite Hm.
Qed.

Lemma handleAddRow_fresh_id_witness :
  let StringToNumber := fun _ : string => VNaN in
  let t := handleAddRow StringToNumber (initialTable []) in
  ∃ n, tableData (handleAddRow StringToNumber t) =
         tableData t ++ [<["id" := VNum n]> (newRow t)]
       ∧ (∀ row m, row ∈ tableData t → row_get row "id" = VNum m → (m < n)%Z)
       ∧ (tableData t = [] → n = 1%Z)
       ∧ newRow (handleAddRow StringToNumber t) = emptyNewRow.
Proof.
  intros StringToNumber t.
  apply (handleAddRow_fresh_id StringToNumber t).
  - intros row Hrow. subst t. cbn in Hrow.
    apply list_elem_of_singleton in Hrow as ->. by exists 1%Z.
  - reflexivity.
Defined.

(** Deleting by an id removes every row that has that id and no other
    row, and keeps the order of the rest; with an id no row has, the table
    is left as it is. *)
Theorem handleDeleteRow_spec (t : TableState) (id : jsval) :
  id ≠ VNaN →
  (∀ row, row ∈ tableData (handleDeleteRow t id) ↔
          row ∈ tableData t ∧ row_get row "id" ≠ id)
  ∧ tableData (handleDeleteRow t id) `sublist_of` tableData t
  ∧ ((∀ row, row ∈ tableData t → row_get row "id" ≠ id) →
     handleDeleteRow t id = t).
Proof.
  intros Hid. unfold handleDeleteRow. cbn [tableData].
  split; [|split].
  - intros row. rewrite list_elem_of_In, filter_In, <- list_elem_of_In.
    rewrite negb_true_iff, <- not_true_iff_false, strict_eq_spec by done.
    done.
  - apply filter_sublist.
  - intros Hnone. destruct t as [rows new]. cbn [tableData newRow] in *.
    f_equal. apply filter_all. intros row Hrow.
    apply negb_true_iff, not_true_iff_false.
    rewrite strict_eq_spec by done. by apply Hnone.
Qed.

Lemma handleDeleteRow_spec_witness :
  let t := handleAddRow (fun _ => VNaN)
             (handleAddRow (fun _ => VNaN) (initialTable [])) in
  tableData (handleDeleteRow t (VNum 1)) `sublist_of` tableData t.
Proof.
  intros t. apply (handleDeleteRow_spec t (VNum 1)). discriminate.
Defined.

(** Editing a cell keeps the number of rows and every other column as it
    was, and a row that differs afterwards holds the new value in the
    edited field.  In a quarter column the value stored is what
    [parseFloat] gives, or 0 when that is [NaN] or 0: a number, whatever
    was typed. *)
Theorem handleInputChange_spec
    (parseFloat : string → jsval) (t : TableState)
    (newValue : string) (id : jsval) (field : string) :
  let t' := handleInputChange parseFloat t newValue id field in
  length (tableData t') = length (tableData t)
  ∧ newRow t' = newRow t
  ∧ (∀ k, k ≠ field →
          map (fun row => row_get row k) (tableData t') =
          map (fun row => row_get row k) (tableData t))
  ∧ (∀ row', row' ∈ tableData t' →
             row' ∈ tableData t
             ∨ row_get row' field = field_value parseFloat field newValue)
  ∧ (String.prefix "Q" field = true → parses_numbers parseFloat →
     ∃ n, field_value parseFloat field newValue = VNum n).
Proof.
  intros t'. subst t'. unfold handleInputChange. cbn [tableData newRow].
  split; [by rewrite length_map|]. split; [done|]. split; [|split].
  - intros k Hk. rewrite map_map. apply map_ext. intros row.
    destruct (strict_eq _ _); [|done].
    unfold row_get. by rewrite lookup_insert_ne.
  - intros row' (row & -> & Hrow)%list_elem_of_fmap.
    destruct (strict_eq _ _); [|by left].
    right. unfold row_get. by rewrite lookup_insert_eq.
  - intros HQ Hpf. unfold field_value, js_or. rewrite HQ.
    destruct (Hpf newValue) as [[n Hn] | Hnan].
    + rewrite Hn. cbn [truthy]. destruct (negb _); by eexists.
    + rewrite Hnan. cbn. by eexists.
Qed.

Lemma handleInputChange_spec_witness :
  ∃ n, field_value (fun _ => VNaN) "Q1" "abc" = VNum n.
Proof.
  apply (handleInputChange_spec (fun _ => VNaN) (initialTable [])
           "abc" (VNum 1) "Q1").
  - reflexivity.
  - intros s. by right.
Defined.

Lemma field_value_row (parseFloat : string → jsval)
    (row : RawRow) (field newValue : string) :
  parses_numbers parseFloat → field ∈ table_fields →
  row_get (<[field := field_value parseFloat field newValue]> row) "id" =
    row_get row "id"
  ∧ (numeric_row row →
     numeric_row (<[field := field_value parseFloat field newValue]> row)).
Proof.
  intros Hpf Hfield. split.
  - unfold row_get. rewrite lookup_insert_ne; [done|].
    intros ->. unfold table_fields in Hfield. set_solver.
  - intros Hrow q Hq. unfold row_get.
    destruct (decide (field = q)) as [-> | Hne].
    + rewrite lookup_insert_eq. cbn [default].
      assert (HQ : String.prefix "Q" q = true).
      { unfold quarters in Hq.
        repeat (apply elem_of_cons in Hq as [-> | Hq]; [reflexivity|]).
        by apply elem_of_nil in Hq. }
      unfold field_value, js_or. rewrite HQ.
      destruct (Hpf newValue) as [[n ->] | ->]; cbn [truthy].
      * destruct (negb _); by eexists.
      * by eexists.
    + rewrite lookup_insert_ne by done. by apply Hrow.
Qed.

Lemma table_step_inv (parseFloat StringToNumber : string → jsval)
    (t : TableState) (e : table_event) :
  parses_numbers parseFloat → on_table_field e →
  table_inv t → table_inv (table_step parseFloat StringToNumber t e).
Proof.
  intros Hpf He (Hnd & Hrows & Hnew & Hnum).
  destruct e as [id field newValue | field newValue | | id];
    cbn [table_step on_table_field] in *.
  - unfold table_inv, handleInputChange. cbn [tableData newRow].
    split; [|split; [|done]].
    + rewrite map_map.
      rewrite (map_ext _ (fun row => row_get row "id")); [done|].
      intros row. destruct (strict_eq _ _); [|done].
      by apply field_value_row.
    + apply Forall_fmap. eapply Forall_impl; [exact Hrows|].
      intros row [Hid Hq]. cbn. destruct (strict_eq _ _); [|done].
      destruct (field_value_row parseFloat row field newValue Hpf He)
        as [-> Hkeep]. auto.
  - unfold table_inv, handleNewRowInputChange. cbn [tableData newRow].
    split; [done|]. split; [done|].
    destruct (field_value_row parseFloat (newRow t) field newValue Hpf He)
      as [Hid Hkeep].
    split; [|by apply Hkeep].
    rewrite lookup_insert_ne; [done|].
    intros ->. unfold table_fields in He. set_solver.
  - assert (Hrow : ∀ x, newRow t ∪ {["id" := x]} = <["id" := x]> (newRow t)).
    { intros x. rewrite insert_union_singleton_l.
      apply map_union_comm, map_disjoint_singleton_r_2. exact Hnew. }
    assert (Hfresh : ∃ n,
      tableData (handleAddRow StringToNumber t) =
        tableData t ++ [<["id" := VNum n]> (newRow t)]
      ∧ VNum n ∉ map (fun row => row_get row "id") (tableData t)).
    { unfold handleAddRow. cbn [tableData].
      destruct (tableData t) as [|row rows] eqn:Htable.
      - exists 1%Z. rewrite Hrow. split; [done|]. by intros ?%elem_of_nil.
      - apply Forall_cons in Hrows as [[[n Hn] _] Hrows].
        destruct (math_max_numeric StringToNumber
                    (map (fun r => row_get r "id") rows) n)
          as (M & HM & Hle & Hall).
        { apply Forall_fmap. eapply Forall_impl; [exact Hrows|].
          by intros r [? _]. }
        exists (M + 1)%Z. rewrite Hn, HM, Hrow. cbn [js_add].
        split; [done|]. cbn [map]. rewrite Hn.
        intros [[= ?] | Hin]%elem_of_cons; [lia|].
        specialize (Hall _ Hin). lia. }
    destruct Hfresh as (n & Htable & Hnotin).
    unfold table_inv. rewrite Htable.
    assert (Hidn : row_get (<["id" := VNum n]> (newRow t)) "id" = VNum n)
      by (unfold row_get; by rewrite lookup_insert_eq).
    split; [|split; [|split]].
    + rewrite map_app. cbn [map]. rewrite Hidn.
      apply NoDup_app. split; [done|]. split; [|apply NoDup_singleton].
      by intros v Hv ->%list_elem_of_singleton.
    + apply Forall_app. split; [done|]. apply Forall_singleton.
      split; [by exists n|].
      intros q Hq. unfold row_get. rewrite lookup_insert_ne.
      * by apply Hnum.
      * intros <-. unfold quarters in Hq. set_solver.
    + reflexivity.
    + intros q Hq. unfold quarters in Hq.
      repeat (apply elem_of_cons in Hq as [-> | Hq]; [by eexists|]).
      by apply elem_of_nil in Hq.
  - unfold table_inv, handleDeleteRow. cbn [tableData newRow].
    split; [|split; [|done]].
    + eapply sublist_NoDup; [exact Hnd|].
      apply (fmap_sublist (fun row => row_get row "id")), filter_sublist.
    + by apply Forall_filter.
Qed.

(** Whatever is done to the table through its inputs and buttons, its
    rows have pairwise distinct numeric ids and four numeric quarterly
    measures; so under every axis mapping the cube of their expansion is
    drawn without a throw, four blocks for each fact. *)
Theorem table_rows_render
    (parseFloat StringToNumber : string → jsval)
    (events : list table_event) (axisMapping : AxisMapping) :
  parses_numbers parseFloat → Forall on_table_field events →
  let rows := tableData (table_run parseFloat StringToNumber events) in
  NoDup (map (fun row => row_get row "id") rows)
  ∧ Forall (fun row => (∃ n, row_get row "id" = VNum n) ∧ numeric_row row) rows
  ∧ ∃ blocks,
      cubeBlocks (processRawData rows axisMapping) axisMapping = Some blocks
      ∧ length blocks = 4 * length (processRawData rows axisMapping).
Proof.
  intros Hpf Hevents. cbn zeta.
  assert (Hinv : table_inv (table_run parseFloat StringToNumber events)).
  { unfold table_run.
    induction events as [|e events IH] using rev_ind.
    - cbn. unfold table_inv. cbn [initialTable tableData newRow map].
      split; [constructor|]. split; [constructor|]. split; [done|].
      intros q Hq. unfold quarters in Hq.
      repeat (apply elem_of_cons in Hq as [-> | Hq]; [by eexists|]).
      by apply elem_of_nil in Hq.
    - apply Forall_app in Hevents as [Hevents He].
      apply Forall_cons in He as [He _].
      rewrite fold_left_app. cbn [fold_left].
      apply table_step_inv; [done | done | by apply IH]. }
  destruct Hinv as (Hnd & Hrows & _).
  split; [done|]. split; [done|].
  destruct (cubeBlocks_numeric
              (processRawData
                 (tableData (table_run parseFloat StringToNumber events))
                 axisMapping) axisMapping)
    as [Hb Hlen].
  - apply numeric_quarters_expanded.
    eapply Forall_impl; [exact Hrows|]. by intros row [_ ?].
  - eexists. by split.
Qed.

Lemma table_rows_render_witness :
  let parseFloat := fun _ : string => VNum 7 in
  let StringToNumber := fun _ : string => VNaN in
  let events :=
    [EditNewRow "continent" "Asia"; EditNewRow "region" "East";
     EditNewRow "Q1" "7"; AddRow; AddRow; DeleteRow (VNum 1);
     EditCell (VNum 2) "Q3" "7"] in
  let rows := tableData (table_run parseFloat StringToNumber events) in
  NoDup (map (fun row => row_get row "id") rows)
  ∧ Forall (fun row => (∃ n, row_get row "id" = VNum n) ∧ numeric_row row) rows
  ∧ ∃ blocks,
      cubeBlocks (processRawData rows defaultMap) defaultMap = Some blocks
      ∧ length blocks = 4 * length (processRawData rows defaultMap).
Proof.
  intros parseFloat StringToNumber events.
  apply (table_rows_render parseFloat StringToNumber events defaultMap).
  - intros s. left. by exists 7%Z.
  - unfold events. repeat constructor; cbn; unfold table_fields; set_solver.
Defined.

(** ** The application: what the cube draws in every state *)

Lemma step_numeric (st : AppState) (e : event) :
  numeric_event e →
  Forall numeric_row (rawData st)
  ∧ Forall numeric_quarters (cubeData st)
  ∧ Forall numeric_quarters (originalCubeDataBeforeRollUp st) →
  Forall numeric_row (rawData (step st e))
  ∧ Forall numeric_quarters (cubeData (step st e))
  ∧ Forall numeric_quarters (originalCubeDataBeforeRollUp (step st e)).
Proof.
  intros He (Hraw & Hcube & Hsnap).
  assert (Hrec : ∀ s, Forall numeric_row (rawData s) →
                      Forall numeric_quarters (originalCubeDataBeforeRollUp s) →
                      Forall numeric_row (rawData (recompute s))
                      ∧ Forall numeric_quarters (cubeData (recompute s))
                      ∧ Forall numeric_quarters
                          (originalCubeDataBeforeRollUp (recompute s))).
  { intros s Hr Hs. unfold recompute.
    destruct (0 <? length (rawData s))%nat;
      cbn [rawData originalCubeDataBeforeRollUp cubeData];
      auto using numeric_quarters_expanded. }
  destruct e as [newData | d v | filters | px py pz | | | ];
    cbn [step numeric_event] in *.
  - by apply Hrec.
  - cbn. split; [done|]. split; [|done].
    destruct (applySlice_cases (originalCubeDataBeforeRollUp st) d v)
      as [-> | ->]; [done | by apply Forall_filter].
  - cbn. split; [done|]. split; [|done].
    rewrite applyDice_filter. by apply Forall_filter.
  - destruct (decide (px = py ∨ px = pz ∨ py = pz)) as [Hdup | Hok].
    + by rewrite handleApplyPivot_rejects.
    + rewrite handleApplyPivot_accepts by tauto. cbn [fst].
      by apply Hrec.
  - unfold handleRollUp. destruct (isRolledUp st); cbn [negb]; [done|].
    cbn. auto using numeric_quarters_rolled_up.
  - unfold handleDrillDown. destruct (isRolledUp st); [by cbn|].
    destruct (0 <? size (currentFilters st))%nat; cbn;
      auto using numeric_quarters_expanded.
  - apply Hrec; cbn; auto using numeric_quarters_expanded.
Qed.

(** With raw data whose quarterly measures are numbers, the cube is drawn
    without a throw after any sequence of events, and it draws four
    blocks for every fact shown: each block is the block of a quarter and
    shows what [toFixed(0)] gives for that quarter's measure as kept on
    the fact.  This holds rolled up or not; in no state is a total
    drawn. *)
Theorem run_cube_blocks (events : list event) :
  Forall numeric_event events →
  ∃ blocks,
    cubeBlocks (cubeData (run events)) (axisMapping (run events)) = Some blocks
    ∧ length blocks = 4 * length (cubeData (run events))
    ∧ Forall (fun b =>
        ∃ g q, g ∈ cubeData (run events) ∧ q ∈ quarters
               ∧ block_key b = ToString (id_ g) +:+ "-" +:+ q
               ∧ toFixed0 (fact_get g q) = Some (block_text b)) blocks.
Proof.
  intros Hevents. apply cubeBlocks_quarter_blocks.
  assert (Hinv : Forall numeric_row (rawData (run events))
                 ∧ Forall numeric_quarters (cubeData (run events))
                 ∧ Forall numeric_quarters
                     (originalCubeDataBeforeRollUp (run events))).
  { unfold run. induction events as [|e events IH] using rev_ind.
    - cbn. by repeat split.
    - apply Forall_app in Hevents as [Hevents He].
      apply Forall_cons in He as [He _].
      rewrite fold_left_app. cbn [fold_left].
      apply step_numeric; [done | by apply IH]. }
  apply Hinv.
Qed.

Lemma run_cube_blocks_witness :
  let events :=
    [DataChanged [row_asia; row_europe];
     Slice "continent" (VStr "asia"); RollUp] in
  ∃ blocks,
    cubeBlocks (cubeData (run events)) (axisMapping (run events)) = Some blocks
    ∧ length blocks = 4 * length (cubeData (run events))
    ∧ Forall (fun b =>
        ∃ g q, g ∈ cubeData (run events) ∧ q ∈ quarters
               ∧ block_key b = ToString (id_ g) +:+ "-" +:+ q
               ∧ toFixed0 (fact_get g q) = Some (block_text b)) blocks.
Proof.
  intros events. apply (run_cube_blocks events).
  unfold events. repeat constructor; intros q Hq; unfold quarters in Hq;
    repeat (apply elem_of_cons in Hq as [-> | Hq]; [by eexists|]);
    by apply elem_of_nil in Hq.
Defined.
